(** * Skill-matrix matching and ranking: a shallow embedding of
      [vector_skill_matrix.py] and the properties its specification states.

    Python values are modelled as follows.
    - [str] is [string]; a character stands for one code point below 256
      (the Latin-1 range), on which [str.strip], [str.lower] and
      [str.upper] are reproduced exactly, apart from the three
      letters noted at [upper_char].
    - The dictionaries of the script have a fixed set of keys and are
      records; a key that may be missing is an [option] field.
    - A raised exception is the [Raise] case of [result].
    - [print] and the calls to the embedding model and the vector index
      are recorded as a list of [Event]s. *)

From Stdlib Require Import ZArith Ascii Sorted.
From Stdlib Require String.
From stdpp Require Import base list strings gmap sorting.

Local Open Scope Z_scope.
Local Open Scope nat_scope.

(* ===================================================================== *)
(** ** Python string primitives                                            *)
(* ===================================================================== *)

Module Str.

(** [str.isspace] on one code point below 256. *)
Definition is_space (c : ascii) : bool :=
  let n := N_of_ascii c in
  ((9 <=? n) && (n <=? 13) || (28 <=? n) && (n <=? 32)
   || (n =? 133) || (n =? 160))%N.

(** [str.lower] on one code point: A-Z and the Latin-1 capitals
    (0xC0-0xDE without the multiplication sign 0xD7) move up by 32. *)
Definition lower_char (c : ascii) : ascii :=
  let n := N_of_ascii c in
  if ((65 <=? n) && (n <=? 90)
      || (192 <=? n) && (n <=? 222) && negb (n =? 215))%N
  then ascii_of_N (n + 32) else c.

(** [str.upper] on one code point.  The upper-case forms of 0xB5, 0xDF
    and 0xFF are not Latin-1 characters (or are two characters); they are
    left in place here, which no comparison with an ASCII word can see. *)
Definition upper_char (c : ascii) : ascii :=
  let n := N_of_ascii c in
  if ((97 <=? n) && (n <=? 122)
      || (224 <=? n) && (n <=? 254) && negb (n =? 247))%N
  then ascii_of_N (n - 32) else c.

Fixpoint lower (s : string) : string :=
  match s with
  | EmptyString => EmptyString
  | String c r => String (lower_char c) (lower r)
  end.

Fixpoint upper (s : string) : string :=
  match s with
  | EmptyString => EmptyString
  | String c r => String (upper_char c) (upper r)
  end.

Fixpoint lstrip (s : string) : string :=
  match s with
  | EmptyString => EmptyString
  | String c r => if is_space c then lstrip r else s
  end.

Fixpoint rstrip (s : string) : string :=
  match s with
  | EmptyString => EmptyString
  | String c r =>
      match rstrip r with
      | EmptyString => if is_space c then EmptyString else String c EmptyString
      | r' => String c r'
      end
  end.

(** [s.strip()] *)
Definition strip (s : string) : string := rstrip (lstrip s).

(** [s.replace(c, e)] for a one-character [c] and the empty string [e]. *)
Fixpoint remove_char (c : ascii) (s : string) : string :=
  match s with
  | EmptyString => EmptyString
  | String d r =>
      if Ascii.eqb d c then remove_char c r else String d (remove_char c r)
  end.

(** [s.split(sep)] for a one-character separator: never the empty list. *)
Fixpoint split (sep : ascii) (s : string) : list string :=
  match s with
  | EmptyString => [EmptyString]
  | String c r =>
      if Ascii.eqb c sep then EmptyString :: split sep r
      else match split sep r with
           | h :: t => String c h :: t
           | [] => [String c EmptyString]
           end
  end.

(** [sub in s] *)
Fixpoint contains (sub s : string) : bool :=
  String.prefix sub s ||
  match s with
  | EmptyString => false
  | String _ r => contains sub r
  end.

(** [s.replace(old, new)]: non-overlapping occurrences, left to right.
    The fuel is the length of [s]; every step consumes a character. *)
Fixpoint drop (n : nat) (s : string) : string :=
  match n, s with
  | O, _ => s
  | S n', String _ r => drop n' r
  | S _, EmptyString => EmptyString
  end.

Fixpoint replace_go (fuel : nat) (old new s : string) : string :=
  match fuel with
  | O => s
  | S fuel' =>
      match s with
      | EmptyString => EmptyString
      | String c r =>
          if String.prefix old s
          then new +:+ replace_go fuel' old new (drop (String.length old) s)
          else String c (replace_go fuel' old new r)
      end
  end.

(** Only used with a non-empty [old]. *)
Definition replace (old new s : string) : string :=
  replace_go (String.length s) old new s.

(** Has the string the character [c]? *)
Fixpoint has_char (c : ascii) (s : string) : bool :=
  match s with
  | EmptyString => false
  | String d r => Ascii.eqb d c || has_char c r
  end.

Definition is_empty (s : string) : bool :=
  match s with EmptyString => true | _ => false end.

End Str.

(* ===================================================================== *)
(** ** Text normalization (lines 9-12)                                     *)
(* ===================================================================== *)

(** [normalize(text)].  The test [not text] also covers [None]; every
    caller in the script passes a string. *)
Definition normalize (text : string) : string :=
  if Str.is_empty text then EmptyString
  else Str.remove_char "_" (Str.remove_char "-" (Str.lower (Str.strip text))).

(* ===================================================================== *)
(** ** Data model                                                          *)
(* ===================================================================== *)

(** An entry of [skills_struct] (lines 103-109). *)
Record Skill := {
  s_name : string;
  s_proficiency : string;
  s_isPrimary : string;
  s_isCurrent : string;
  s_experienceProjectMths : Z
}.

(** An entry of [courses_struct] (lines 117-120). *)
Record Course := { c_name : string; c_completedOn : string }.

(** An entry of [certs_struct] (lines 127-130). *)
Record Cert := { cert_name : string; cert_certifiedOn : string }.

(** An entry of [structured_data] (lines 152-162); the [summary] text is
    only fed to the embedding model and is left out. *)
Record Profile := {
  empID : string;
  name : string;
  jobLevel : string;
  company : string;
  mailID : string;
  skills_struct : list Skill;
  courses_struct : list Course;
  certs_struct : list Cert
}.

(** The values of the ["match_type"] key. *)
Inductive MatchType := EXACT | AND | OR | PARTIAL | COURSE.

Global Instance MatchType_eq_dec : EqDecision MatchType.
Proof. solve_decision. Defined.

(** A match dictionary: ["profile"] is always there, ["skill"] or
    ["course"] as the strategy put it, ["match_type"] once tagged. *)
Record Match := {
  m_profile : Profile;
  m_skill : option Skill;
  m_course : option Course;
  m_match_type : option MatchType
}.

Definition skill_match (profile : Profile) (s : Skill) : Match :=
  {| m_profile := profile; m_skill := Some s; m_course := None;
     m_match_type := None |}.

Definition course_match (profile : Profile) (c : Course) : Match :=
  {| m_profile := profile; m_skill := None; m_course := Some c;
     m_match_type := None |}.

(** [m["match_type"] = t] *)
Definition set_match_type (t : MatchType) (m : Match) : Match :=
  {| m_profile := m_profile m; m_skill := m_skill m; m_course := m_course m;
     m_match_type := Some t |}.

(** [m["profile"]["empID"]] *)
Definition match_id (m : Match) : string := empID (m_profile m).

(** The metadata the vector index returns with a document (lines 139-151),
    with the keys the fallback reads. *)
Record Meta := {
  meta_empID : string;
  meta_name : string;
  meta_jobLevel : string;
  meta_company : string;
  meta_mailID : string;
  meta_skills_list : string
}.

(** Exceptions and results. *)
Inductive exn := KeyError (key : string).

Inductive result (A : Type) := Ok (a : A) | Raise (e : exn).
Global Arguments Ok {A} a.
Global Arguments Raise {A} e.

Global Instance result_ret : MRet result := fun A a => Ok a.
Global Instance result_bind : MBind result := fun A B k r =>
  match r with Ok a => k a | Raise e => Raise e end.

(* ===================================================================== *)
(** ** Matching strategies (lines 14-58)                                   *)
(* ===================================================================== *)

(** The inner loop shared by the strategies:
    [for x in xs: if test(x): <record x>; break]. *)
Fixpoint first_hit {A} (test : A → bool) (xs : list A) : option A :=
  match xs with
  | [] => None
  | x :: rest => if test x then Some x else first_hit test rest
  end.

(** The outer loop shared by the strategies: [matches = []], then for each
    profile [matches.append(...)] when its inner loop recorded a match. *)
Definition scan_profiles (pick : Profile → option Match)
    (structured_data : list Profile) : list Match :=
  foldl (fun matches profile =>
           match pick profile with
           | Some m => matches ++ [m]
           | None => matches
           end) [] structured_data.

(** [any(part in name for part in skill_parts)] *)
Definition any_part_in (skill_parts : list string) (name : string) : bool :=
  existsb (fun part => Str.contains part name) skill_parts.

(** [all(part in name for part in skill_parts)] *)
Definition all_parts_in (skill_parts : list string) (name : string) : bool :=
  forallb (fun part => Str.contains part name) skill_parts.

Definition find_skill_matches (skill_phrase : string)
    (structured_data : list Profile) (partial : bool) : list Match :=
  let skill_phrase_norm := normalize skill_phrase in
  let skill_parts := map normalize (Str.split "|" skill_phrase) in
  scan_profiles (fun profile =>
    skill_match profile <$>
      first_hit (fun s =>
        let name := normalize (s_name s) in
        if String.eqb skill_phrase_norm name then true
        else partial && any_part_in skill_parts name)
      (skills_struct profile)) structured_data.

Definition find_and_matches (skill_parts : list string)
    (structured_data : list Profile) : list Match :=
  scan_profiles (fun profile =>
    skill_match profile <$>
      first_hit (fun s => all_parts_in skill_parts (normalize (s_name s)))
        (skills_struct profile)) structured_data.

Definition find_or_matches (skill_parts : list string)
    (structured_data : list Profile) : list Match :=
  scan_profiles (fun profile =>
    skill_match profile <$>
      first_hit (fun s => any_part_in skill_parts (normalize (s_name s)))
        (skills_struct profile)) structured_data.

Definition find_course_matches (skill_phrase : string)
    (structured_data : list Profile) : list Match :=
  let skill_phrase_norm := normalize skill_phrase in
  scan_profiles (fun profile =>
    course_match profile <$>
      first_hit (fun c =>
        let course_name := normalize (c_name c) in
        Str.contains skill_phrase_norm course_name
        || any_part_in (Str.split "|" skill_phrase_norm) course_name)
      (courses_struct profile)) structured_data.

(* ===================================================================== *)
(** ** Sort key and sorting (lines 60-68)                                  *)
(* ===================================================================== *)

Definition Key : Type := Z * Z * Z * Z.

(** [proficiency_order.get(k, 0)]; the [None] key of the dictionary is never
    looked up, the argument being a string. *)
Definition proficiency_order (k : string) : Z :=
  if String.eqb k "EXPERT" then 4
  else if String.eqb k "PROFICIENT" then 3
  else if String.eqb k "COMPETENT" then 2
  else if String.eqb k "BEGINNER" then 1
  else 0.

Definition skill_sort_key (m : Match) : result Key :=
  match m_skill m with
  | None => Raise (KeyError "skill")          (* s = match["skill"] *)
  | Some s =>
      Ok ((- s_experienceProjectMths s,
           if String.eqb (Str.upper (s_isCurrent s)) "YES" then -1 else 0,
           if String.eqb (Str.upper (s_isPrimary s)) "YES" then 1 else 0,
           - proficiency_order (Str.upper (s_proficiency s)))%Z)
  end.

(** Python's [<] on 4-tuples of integers. *)
Definition key_ltb (a b : Key) : bool :=
  let '(a1, a2, a3, a4) := a in
  let '(b1, b2, b3, b4) := b in
  ((a1 <? b1) || (a1 =? b1) &&
   ((a2 <? b2) || (a2 =? b2) &&
    ((a3 <? b3) || (a3 =? b3) && (a4 <? b4))))%Z.

(** [sorted(l, key=key)]: the keys of all elements are computed first, left
    to right (the first exception ends the call); the sort is stable. *)
Fixpoint decorate {A} (key : A → result Key) (l : list A)
    : result (list (Key * A)) :=
  match l with
  | [] => Ok []
  | x :: rest =>
      k ← key x;
      rest' ← decorate key rest;
      mret ((k, x) :: rest')
  end.

Fixpoint insert_sorted {A} (x : Key * A) (l : list (Key * A))
    : list (Key * A) :=
  match l with
  | [] => [x]
  | y :: rest =>
      if key_ltb (fst y) (fst x) then y :: insert_sorted x rest
      else x :: y :: rest
  end.

Definition stable_sort {A} (l : list (Key * A)) : list (Key * A) :=
  foldr insert_sorted [] l.

Definition sorted {A} (key : A → result Key) (l : list A) : result (list A) :=
  d ← decorate key l;
  mret (map snd (stable_sort d)).

(* ===================================================================== *)
(** ** Profile normalizer (lines 70-78 and 94-162)                         *)
(* ===================================================================== *)

(** The body of the loop of [clean_skills], on the pair of [seen] and
    [cleaned]. *)
Definition clean_step (st : gset string * list Skill) (s : Skill)
    : gset string * list Skill :=
  let '(seen, cleaned) := st in
  let name := normalize (s_name s) in
  if negb (Str.is_empty name) && bool_decide (name ∉ seen)
  then ({[name]} ∪ seen, cleaned ++ [s])
  else (seen, cleaned).

Definition clean_skills (skills_struct : list Skill) : list Skill :=
  snd (foldl clean_step (∅, []) skills_struct).

(** Raw records as decoded from the data files: a field that may be missing
    is an [option].  [rs_path] is [s.get("skill", {}).get("path")]. *)
Record RawSkill := {
  rs_path : option string;
  rs_proficiency : option string;
  rs_isPrimary : option string;
  rs_isCurrent : option string;
  rs_experienceProjectMths : option Z
}.

Record RawCourse := {
  rc_courseName : option string;
  rc_completedon : option string
}.

Record RawCert := {
  rcert_certificationName : option string;
  rcert_certifiedon : option string
}.

Record RawEmployee := {
  re_empID : option string;
  re_name : option string;
  re_jobLevel : option string;
  re_company : option string;
  re_mailID : option string;
  re_skills : list RawSkill;
  re_courses : list RawCourse;
  re_certifications : list RawCert
}.

(** [d.get(k, e)] with the empty string [e] as default. *)
Definition get_str (o : option string) : string := default EmptyString o.

(** Truth value of [d.get(k)] for a string or missing value. *)
Definition truthy (o : option string) : bool :=
  match o with Some s => negb (Str.is_empty s) | None => false end.

Definition raw_skills_struct (emp : RawEmployee) : list Skill :=
  map (fun s => {| s_name := get_str (rs_path s);
                   s_proficiency := get_str (rs_proficiency s);
                   s_isPrimary := get_str (rs_isPrimary s);
                   s_isCurrent := get_str (rs_isCurrent s);
                   s_experienceProjectMths :=
                     default 0%Z (rs_experienceProjectMths s) |})
      (List.filter (fun s => truthy (rs_path s)) (re_skills emp)).

Definition raw_courses_struct (emp : RawEmployee) : list Course :=
  map (fun c => {| c_name := get_str (rc_courseName c);
                   c_completedOn := get_str (rc_completedon c) |})
      (List.filter (fun c => truthy (rc_courseName c)) (re_courses emp)).

Definition raw_certs_struct (emp : RawEmployee) : list Cert :=
  map (fun c => {| cert_name := get_str (rcert_certificationName c);
                   cert_certifiedOn := get_str (rcert_certifiedon c) |})
      (List.filter (fun c => truthy (rcert_certificationName c))
                   (re_certifications emp)).

(** One iteration of the loop at line 94: the [structured_data] entry. *)
Definition build_profile (emp : RawEmployee) : Profile :=
  {| empID := get_str (re_empID emp);
     name := get_str (re_name emp);
     jobLevel := get_str (re_jobLevel emp);
     company := get_str (re_company emp);
     mailID := get_str (re_mailID emp);
     skills_struct := clean_skills (raw_skills_struct emp);
     courses_struct := raw_courses_struct emp;
     certs_struct := raw_certs_struct emp |}.

(** The [metadatas] entry of the same iteration, as stored in the index. *)
Definition join_names (l : list string) : string :=
  match l with
  | [] => EmptyString
  | h :: t => foldl (fun acc x => acc +:+ ", " +:+ x) h t
  end.

Definition build_meta (emp : RawEmployee) : Meta :=
  {| meta_empID := get_str (re_empID emp);
     meta_name := get_str (re_name emp);
     meta_jobLevel := get_str (re_jobLevel emp);
     meta_company := get_str (re_company emp);
     meta_mailID := get_str (re_mailID emp);
     meta_skills_list :=
       join_names (map s_name (clean_skills (raw_skills_struct emp))) |}.

(* ===================================================================== *)
(** ** Query phrase (lines 179-191)                                        *)
(* ===================================================================== *)

Definition newline : ascii := "010"%char.

(** The rest of the pattern [(.+?)(\?|$)] once the lazy group holds at
    least one character: stop at the first ["?"], at the end of the text or
    before a final line break; [.] takes any other character but a line
    break. *)
Fixpoint group_rest (r : string) : option string :=
  match r with
  | EmptyString => Some EmptyString
  | String c r' =>
      if Ascii.eqb c "?" then Some EmptyString
      else if Ascii.eqb c newline
           then (if Str.is_empty r' then Some EmptyString else None)
           else String c <$> group_rest r'
  end.

(** Group 1 of the pattern matched right after ["who knows "]. *)
Definition group1 (r : string) : option string :=
  match r with
  | EmptyString => None
  | String c r' =>
      if Ascii.eqb c newline then None else String c <$> group_rest r'
  end.

(** [re.search(r"who knows (.+?)(\?|$)", s)]: the leftmost position where
    the pattern matches; the result is group 1. *)
Fixpoint search_who_knows (s : string) : option string :=
  match (if String.prefix "who knows " s then group1 (Str.drop 10 s)
         else None) with
  | Some g => Some g
  | None =>
      match s with
      | EmptyString => None
      | String _ r => search_who_knows r
      end
  end.

Definition extract_skill_phrase (query : string) : option string :=
  Str.strip <$> search_who_knows (Str.lower query).

(** Line 190: the rewriting of " and " and " or " into the delimiter. *)
Definition rewrite_conjunctions (skill_phrase : string) : string :=
  Str.replace " or " "|" (Str.replace " and " "|" skill_phrase).

(** Lines 16 and 191. *)
Definition parts_of (skill_phrase : string) : list string :=
  map normalize (Str.split "|" skill_phrase).

(* ===================================================================== *)
(** ** Result aggregator (lines 196-231)                                   *)
(* ===================================================================== *)

(** [{m["profile"]["empID"] for m in top_matches}] *)
Definition existing_ids (top_matches : list Match) : gset string :=
  list_to_set (map match_id top_matches).

(** A tier joins the merged list: tag, drop the profiles already there,
    extend. *)
Definition extend_tier (t : MatchType) (tier top_matches : list Match)
    : list Match :=
  let tier := map (set_match_type t) tier in
  let ids := existing_ids top_matches in
  top_matches ++ filter (fun m => match_id m ∉ ids) tier.

Definition aggregate (skill_phrase : string) (structured_data : list Profile)
    : list Match :=
  let skill_parts := parts_of skill_phrase in
  let top_matches := [] in
  let exact_matches := find_skill_matches skill_phrase structured_data false in
  let top_matches := top_matches ++ map (set_match_type EXACT) exact_matches in
  let top_matches :=
    if 1 <? length skill_parts
    then extend_tier AND (find_and_matches skill_parts structured_data)
           top_matches
    else top_matches in
  let top_matches :=
    if 1 <? length skill_parts
    then extend_tier OR (find_or_matches skill_parts structured_data)
           top_matches
    else top_matches in
  let top_matches :=
    extend_tier PARTIAL (find_skill_matches skill_phrase structured_data true)
      top_matches in
  extend_tier COURSE (find_course_matches skill_phrase structured_data)
    top_matches.

(* ===================================================================== *)
(** ** Output, semantic fallback (lines 233-252), ranker (lines 254-271)   *)
(* ===================================================================== *)

Inductive Event :=
| CouldNotExtract                         (* line 187 *)
| PhraseForMatching (skill_phrase : string)  (* line 193 *)
| SemanticFallback (query : string)       (* lines 234-236: the heading, then
                                             the query is embedded and the
                                             index asked for 3 neighbours *)
| SemanticMatch (n : nat) (meta : Meta)   (* lines 242-250, "Match n" *)
| TopRelevant                             (* line 273 *)
| Shown (m : Match).                      (* lines 276-282 *)

(** The loop at line 238.  [top_matches] is not touched by it, so its length
    [len] and the set [ids] stay what they were on entry. *)
Fixpoint fallback_loop (ids : gset string) (len : nat) (metas : list Meta)
    : list Event :=
  match metas with
  | [] => []
  | meta :: rest =>
      if bool_decide (meta_empID meta ∈ ids)
      then fallback_loop ids len rest                      (* continue *)
      else SemanticMatch (len + 1) meta ::
           (if 3 <=? len + 1 then []                       (* break *)
            else fallback_loop ids len rest)
  end.

(** The block at line 233, in state-passing form: the list [top_matches]
    after the block and what was printed.  [nearest] stands for the two
    external calls: the metadata of the (at most 3) documents the index
    returns for the embedded query, nearest first. *)
Definition semantic_fallback (nearest : string → list Meta) (query : string)
    (top_matches : list Match) : list Match * list Event :=
  if length top_matches <? 3
  then (top_matches,
        SemanticFallback query ::
        fallback_loop (existing_ids top_matches) (length top_matches)
          (nearest query))
  else (top_matches, []).

(** [sorted(l, key=skill_sort_key)[0] if l else None] *)
Definition best_of (l : list Match) : result (option Match) :=
  match l with
  | [] => Ok None
  | _ => l' ← sorted skill_sort_key l; mret (head l')
  end.

(** The body of [if top_matches:] up to line 271: [final_matches]. *)
Definition rank (top_matches : list Match) : result (list Match) :=
  let exacts := filter (fun m => m_match_type m = Some EXACT) top_matches in
  best_exact ← best_of exacts;
  best_and ←
    match best_exact with
    | Some _ => Ok None
    | None =>
        best_of (filter (fun m => m_match_type m = Some AND) top_matches)
    end;
  let non_exacts :=
    filter (fun m => m_match_type m ∉ [Some EXACT; Some AND]) top_matches in
  non_exacts_sorted ← sorted skill_sort_key non_exacts;
  let final_matches :=
    match best_exact, best_and with
    | Some b, _ => [b]
    | None, Some b => [b]
    | None, None => []
    end in
  mret (final_matches ++ take 2 non_exacts_sorted).

(** How a run of the script from line 177 on ends. *)
Inductive Outcome :=
| Exited (printed : list Event)
    (* [exit()] at line 188 *)
| Completed (printed : list Event) (top_matches : list Match)
    (final_matches : option (list Match))
    (* the end of the script; [final_matches] exists if [top_matches] is
       not empty *)
| Uncaught (e : exn) (printed : list Event) (top_matches : list Match).
    (* an exception nobody handles *)

Definition main (structured_data : list Profile)
    (nearest : string → list Meta) (query : string) : Outcome :=
  match extract_skill_phrase query with
  | None => Exited [CouldNotExtract]
  | Some skill_phrase =>
      if Str.is_empty skill_phrase then Exited [CouldNotExtract]
      else
        let skill_phrase := rewrite_conjunctions skill_phrase in
        let top_matches := aggregate skill_phrase structured_data in
        let '(top_matches, shown) :=
          semantic_fallback nearest query top_matches in
        let printed := PhraseForMatching skill_phrase :: shown in
        match top_matches with
        | [] => Completed printed top_matches None
        | _ =>
            match rank top_matches with
            | Raise e => Uncaught e printed top_matches
            | Ok final_matches =>
                Completed (printed ++ TopRelevant :: map Shown final_matches)
                  top_matches (Some final_matches)
            end
        end
  end.

(* ===================================================================== *)
(** ** Vocabulary of the statements                                        *)
(* ===================================================================== *)

(** [name] contains every part / some part as a substring. *)
Definition contains_all (skill_parts : list string) (name : string) : Prop :=
  ∀ part, part ∈ skill_parts → Str.contains part name = true.

Definition contains_some (skill_parts : list string) (name : string) : Prop :=
  ∃ part, part ∈ skill_parts ∧ Str.contains part name = true.

(** [x] is the first element of [xs] with the property [P]. *)
Definition first_with {A} (P : A → Prop) (xs : list A) (x : A) : Prop :=
  ∃ pre post, xs = pre ++ x :: post ∧ P x ∧ ∀ y, y ∈ pre → ¬ P y.

(** What each strategy looks for in a skill or course of a profile. *)
Definition exact_skill (skill_phrase : string) (s : Skill) : Prop :=
  normalize (s_name s) = normalize skill_phrase.

Definition and_skill (skill_parts : list string) (s : Skill) : Prop :=
  contains_all skill_parts (normalize (s_name s)).

Definition or_skill (skill_parts : list string) (s : Skill) : Prop :=
  contains_some skill_parts (normalize (s_name s)).

Definition partial_skill (skill_phrase : string) (s : Skill) : Prop :=
  exact_skill skill_phrase s ∨ or_skill (parts_of skill_phrase) s.

Definition related_course (skill_phrase : string) (c : Course) : Prop :=
  Str.contains (normalize skill_phrase) (normalize (c_name c)) = true
  ∨ contains_some (Str.split "|" (normalize skill_phrase))
      (normalize (c_name c)).

(** The tier [t] of the aggregator, run on [skill_phrase], matches the
    profile: the conjunctive and disjunctive tiers only run on a phrase of
    two parts or more. *)
Definition tier_matches (skill_phrase : string) (t : MatchType)
    (p : Profile) : Prop :=
  match t with
  | EXACT => ∃ s, s ∈ skills_struct p ∧ exact_skill skill_phrase s
  | AND => 2 ≤ length (parts_of skill_phrase)
           ∧ ∃ s, s ∈ skills_struct p ∧ and_skill (parts_of skill_phrase) s
  | OR => 2 ≤ length (parts_of skill_phrase)
          ∧ ∃ s, s ∈ skills_struct p ∧ or_skill (parts_of skill_phrase) s
  | PARTIAL => ∃ s, s ∈ skills_struct p ∧ partial_skill skill_phrase s
  | COURSE => ∃ c, c ∈ courses_struct p ∧ related_course skill_phrase c
  end.

(** EXACT > AND > OR > PARTIAL > COURSE: the smaller number wins. *)
Definition priority (t : MatchType) : nat :=
  match t with EXACT => 0 | AND => 1 | OR => 2 | PARTIAL => 3 | COURSE => 4 end.

Definition all_tiers : list MatchType := [EXACT; AND; OR; PARTIAL; COURSE].

(** The semantic matches a run printed, in order. *)
Definition semantic_shown (printed : list Event) : list Meta :=
  omap (fun e => match e with SemanticMatch _ meta => Some meta | _ => None end)
       printed.

(** Was the fallback entered? *)
Definition fallback_invoked (query : string) (printed : list Event) : Prop :=
  SemanticFallback query ∈ printed.

(** The merged list after the tiers [done] have run on [structured_data]:
    one entry per identity; every entry carries the tier that matched its
    profile and no tier of [done] with a higher priority matches it; every
    profile matched by a tier of [done] is in the list. *)
Definition tier_inv (skill_phrase : string) (structured_data : list Profile)
    (done : list MatchType) (top_matches : list Match) : Prop :=
  NoDup (map match_id top_matches)
  ∧ (∀ m, m ∈ top_matches →
       ∃ t, t ∈ done ∧ m_match_type m = Some t
            ∧ m_profile m ∈ structured_data
            ∧ tier_matches skill_phrase t (m_profile m)
            ∧ ∀ t', t' ∈ done → priority t' < priority t →
                    ¬ tier_matches skill_phrase t' (m_profile m))
  ∧ (∀ p t, p ∈ structured_data → t ∈ done →
            tier_matches skill_phrase t p →
            empID p ∈ existing_ids top_matches).

(** The rule of the specification for the skills of a record, in its own
    words: an entry is kept unless an earlier entry has the same normalized
    name. *)
Fixpoint dedup_first (l : list Skill) : list Skill :=
  match l with
  | [] => []
  | s :: rest =>
      s :: filter (fun s' => normalize (s_name s') ≠ normalize (s_name s))
             (dedup_first rest)
  end.

(** Raw sample records. *)
Definition raw_skill (path : string) : RawSkill :=
  {| rs_path := Some path; rs_proficiency := Some "EXPERT";
     rs_isPrimary := None; rs_isCurrent := Some "YES";
     rs_experienceProjectMths := Some 12%Z |}.

Definition raw_employee (skills : list RawSkill) : RawEmployee :=
  {| re_empID := Some "E1"; re_name := Some "Ann"; re_jobLevel := None;
     re_company := None; re_mailID := None; re_skills := skills;
     re_courses := []; re_certifications := [] |}.

(** A raw employee record with the given empID and skills. *)
Definition an_employee (id : string) (paths : list string) : RawEmployee :=
  {| re_empID := Some id; re_name := Some ("Employee " +:+ id);
     re_jobLevel := Some "5"; re_company := Some "ACME";
     re_mailID := Some (id +:+ "@example.org");
     re_skills := map raw_skill paths;
     re_courses := []; re_certifications := [] |}.

(** The string does not begin with white space. *)
Definition starts_clean (s : string) : Prop :=
  match s with
  | EmptyString => True
  | String c _ => Str.is_space c = false
  end.

(** Sample data used in the examples. *)
Definition a_skill (n : string) (months : Z) (current primary : string)
    (proficiency : string) : Skill :=
  {| s_name := n; s_proficiency := proficiency; s_isPrimary := primary;
     s_isCurrent := current; s_experienceProjectMths := months |}.

Definition a_course (n : string) : Course :=
  {| c_name := n; c_completedOn := "2024-01-01" |}.

Definition a_profile (id : string) (skills : list Skill)
    (courses : list Course) : Profile :=
  {| empID := id; name := "Employee " +:+ id; jobLevel := "5";
     company := "ACME"; mailID := id +:+ "@example.org";
     skills_struct := skills; courses_struct := courses; certs_struct := [] |}.

Definition a_meta (id : string) : Meta :=
  {| meta_empID := id; meta_name := "Employee " +:+ id; meta_jobLevel := "5";
     meta_company := "ACME"; meta_mailID := id +:+ "@example.org";
     meta_skills_list := "Hadoop" |}.

(** The place of an entry of the merged list in the order of the tiers
    (an entry without a tag would come last). *)
Definition tier_rank (m : Match) : nat :=
  from_option priority 5 (m_match_type m).

(** The first skill / course of a profile, as a match. *)
Definition first_skill_match (p : Profile) : option Match :=
  skill_match p <$> head (skills_struct p).

Definition first_course_match (p : Profile) : option Match :=
  course_match p <$> head (courses_struct p).

(** The entry [m] is what the tier [t] records for its profile: the tag,
    and the first skill (course) of the profile that passes the test of the
    tier. *)
Definition recorded_by (skill_phrase : string) (t : MatchType) (m : Match)
    : Prop :=
  let p := m_profile m in
  match t with
  | EXACT => ∃ s, m = set_match_type EXACT (skill_match p s)
      ∧ first_with (exact_skill skill_phrase) (skills_struct p) s
  | AND => ∃ s, m = set_match_type AND (skill_match p s)
      ∧ first_with (and_skill (parts_of skill_phrase)) (skills_struct p) s
  | OR => ∃ s, m = set_match_type OR (skill_match p s)
      ∧ first_with (or_skill (parts_of skill_phrase)) (skills_struct p) s
  | PARTIAL => ∃ s, m = set_match_type PARTIAL (skill_match p s)
      ∧ first_with (partial_skill skill_phrase) (skills_struct p) s
  | COURSE => ∃ c, m = set_match_type COURSE (course_match p c)
      ∧ first_with (related_course skill_phrase) (courses_struct p) c
  end.

(** [b] is the first entry of [l] with the least sort key: the entries
    before it have a greater key, the entries after it no smaller one. *)
Definition best_in (l : list Match) (b : Match) : Prop :=
  ∃ pre post kb,
    l = pre ++ b :: post ∧ skill_sort_key b = Ok kb
    ∧ (∀ m, m ∈ pre →
         ∃ km, skill_sort_key m = Ok km ∧ key_ltb kb km = true)
    ∧ (∀ m, m ∈ post →
         ∃ km, skill_sort_key m = Ok km ∧ key_ltb km kb = false).

(** [s.split(sep)] for a separator of one or more characters: the
    occurrences are taken from the left and do not overlap.  The fuel is
    the length of [s]; every step consumes a character. *)
Fixpoint split_str_go (fuel : nat) (sep s : string) : list string :=
  match fuel with
  | O => [s]
  | S fuel' =>
      match s with
      | EmptyString => [EmptyString]
      | String c r =>
          if String.prefix sep s
          then EmptyString ::
               split_str_go fuel' sep (Str.drop (String.length sep) s)
          else match split_str_go fuel' sep r with
               | h :: t => String c h :: t
               | [] => [String c EmptyString]
               end
      end
  end.

Definition split_str (sep s : string) : list string :=
  split_str_go (String.length s) sep s.

(** Lines 245-250: the skills printed under a semantic match, the first
    five of [meta["skills_list"].split(", ")], and the number of the "and
    N more" line when there are more than five. *)
Definition shown_skills (meta : Meta) : list string * option nat :=
  let skills := split_str ", " (meta_skills_list meta) in
  (take 5 skills,
   if 5 <? length skills then Some (length skills - 5) else None).

(* ===================================================================== *)
(** * Properties                                                            *)
(* ===================================================================== *)

(** ** Characters and strings *)

Lemma lower_char_idem c : Str.lower_char (Str.lower_char c) = Str.lower_char c.
Proof. by destruct c as [[] [] [] [] [] [] [] []]. Qed.

Lemma is_space_lower_char c : Str.is_space (Str.lower_char c) = Str.is_space c.
Proof. by destruct c as [[] [] [] [] [] [] [] []]. Qed.

Lemma lower_char_dash c : Ascii.eqb (Str.lower_char c) "-" = Ascii.eqb c "-".
Proof. by destruct c as [[] [] [] [] [] [] [] []]. Qed.

Lemma lower_char_underscore c :
  Ascii.eqb (Str.lower_char c) "_" = Ascii.eqb c "_".
Proof. by destruct c as [[] [] [] [] [] [] [] []]. Qed.

Lemma lower_char_bar c : Ascii.eqb (Str.lower_char c) "|" = Ascii.eqb c "|".
Proof. by destruct c as [[] [] [] [] [] [] [] []]. Qed.

Lemma has_char_lower_dash s :
  Str.has_char "-" (Str.lower s) = Str.has_char "-" s.
Proof.
  induction s as [|c r IH]; simpl; [done|]. by rewrite lower_char_dash, IH.
Qed.

Lemma has_char_lower_underscore s :
  Str.has_char "_" (Str.lower s) = Str.has_char "_" s.
Proof.
  induction s as [|c r IH]; simpl; [done|].
  by rewrite lower_char_underscore, IH.
Qed.

Lemma has_char_lower_bar s :
  Str.has_char "|" (Str.lower s) = Str.has_char "|" s.
Proof.
  induction s as [|c r IH]; simpl; [done|]. by rewrite lower_char_bar, IH.
Qed.

Lemma lower_fixed s :
  (∀ c, Str.has_char c s = true → Str.lower_char c = c) → Str.lower s = s.
Proof.
  induction s as [|d r IH]; simpl; intros H; [done|].
  rewrite (H d), IH; [done| |].
  - intros c Hc. apply H. by rewrite Hc, orb_true_r.
  - by rewrite Ascii.eqb_refl.
Qed.

Lemma has_char_lower c s :
  Str.has_char c (Str.lower s) = true → Str.lower_char c = c.
Proof.
  induction s as [|d r IH]; simpl; [done|].
  intros [H|H]%orb_true_iff; [|by apply IH].
  apply Ascii.eqb_eq in H as <-. apply lower_char_idem.
Qed.

Lemma remove_char_fixed c s :
  Str.has_char c s = false → Str.remove_char c s = s.
Proof.
  induction s as [|d r IH]; simpl; [done|].
  intros [H1 H2]%orb_false_iff. by rewrite H1, IH.
Qed.

Lemma has_char_remove_char c d s :
  Str.has_char c (Str.remove_char d s)
  = Str.has_char c s && negb (Ascii.eqb c d).
Proof.
  induction s as [|e r IH]; simpl; [done|].
  destruct (Ascii.eqb e d) eqn:Hed; simpl; rewrite IH.
  - apply Ascii.eqb_eq in Hed as ->.
    destruct (Ascii.eqb d c) eqn:Hdc; simpl; [|done].
    apply Ascii.eqb_eq in Hdc as ->. rewrite Ascii.eqb_refl. simpl.
    by rewrite andb_false_r.
  - destruct (Ascii.eqb e c) eqn:Hec; simpl; [|done].
    apply Ascii.eqb_eq in Hec as ->. by rewrite Hed.
Qed.

Lemma has_char_lstrip c s :
  Str.has_char c (Str.lstrip s) = true → Str.has_char c s = true.
Proof.
  induction s as [|d r IH]; simpl; [done|].
  destruct (Str.is_space d); [|done].
  intros H. by rewrite IH, orb_true_r.
Qed.

Lemma has_char_rstrip c s :
  Str.has_char c (Str.rstrip s) = true → Str.has_char c s = true.
Proof.
  induction s as [|d r IH]; simpl; [done|].
  destruct (Str.rstrip r) as [|e r'] eqn:Hr.
  - destruct (Str.is_space d); simpl; [done|].
    rewrite orb_false_r. by intros ->.
  - simpl in *. intros [->|H]%orb_true_iff; [done|].
    by rewrite IH, orb_true_r.
Qed.

Lemma has_char_strip c s :
  Str.has_char c (Str.strip s) = true → Str.has_char c s = true.
Proof. intros H. by apply has_char_lstrip, has_char_rstrip. Qed.

(** A character that is not white space survives [strip]. *)
Lemma has_char_lstrip_keep c s :
  Str.is_space c = false →
  Str.has_char c (Str.lstrip s) = Str.has_char c s.
Proof.
  intros Hc. induction s as [|d r IH]; simpl; [done|].
  destruct (Str.is_space d) eqn:Hd; [|done].
  rewrite IH. destruct (Ascii.eqb d c) eqn:Hdc; [|done].
  apply Ascii.eqb_eq in Hdc as ->. congruence.
Qed.

Lemma has_char_rstrip_keep c s :
  Str.is_space c = false →
  Str.has_char c (Str.rstrip s) = Str.has_char c s.
Proof.
  intros Hc. induction s as [|d r IH]; simpl; [done|].
  destruct (Str.rstrip r) as [|e r'] eqn:Hr.
  - rewrite <- IH. simpl. rewrite orb_false_r.
    destruct (Str.is_space d) eqn:Hd; simpl; [|by rewrite orb_false_r].
    destruct (Ascii.eqb d c) eqn:Hdc; [|done].
    apply Ascii.eqb_eq in Hdc as ->. congruence.
  - simpl. by rewrite <- IH.
Qed.

Lemma has_char_strip_keep c s :
  Str.is_space c = false → Str.has_char c (Str.strip s) = Str.has_char c s.
Proof.
  intros Hc. unfold Str.strip.
  by rewrite has_char_rstrip_keep, has_char_lstrip_keep.
Qed.

(** [strip] against itself and against [lower]. *)
Lemma lstrip_lower s : Str.lstrip (Str.lower s) = Str.lower (Str.lstrip s).
Proof.
  induction s as [|c r IH]; simpl; [done|].
  rewrite is_space_lower_char. by destruct (Str.is_space c).
Qed.

Lemma rstrip_lower s : Str.rstrip (Str.lower s) = Str.lower (Str.rstrip s).
Proof.
  induction s as [|c r IH]; simpl; [done|].
  rewrite IH, is_space_lower_char.
  destruct (Str.rstrip r); simpl; [|done]. by destruct (Str.is_space c).
Qed.

Lemma strip_lower s : Str.strip (Str.lower s) = Str.lower (Str.strip s).
Proof. unfold Str.strip. by rewrite lstrip_lower, rstrip_lower. Qed.

Lemma rstrip_idem s : Str.rstrip (Str.rstrip s) = Str.rstrip s.
Proof.
  induction s as [|c r IH]; simpl; [done|].
  destruct (Str.rstrip r) as [|d r'] eqn:Hr.
  - destruct (Str.is_space c) eqn:Hc; simpl; [done|]. by rewrite Hc.
  - simpl in *. by rewrite IH.
Qed.

Lemma lstrip_starts_clean s : starts_clean (Str.lstrip s).
Proof.
  induction s as [|c r IH]; simpl; [done|].
  by destruct (Str.is_space c) eqn:Hc.
Qed.

Lemma rstrip_starts_clean s : starts_clean s → starts_clean (Str.rstrip s).
Proof.
  destruct s as [|c r]; simpl; [done|]. intros Hc.
  destruct (Str.rstrip r); simpl; [by rewrite Hc|done].
Qed.

Lemma lstrip_fixed s : starts_clean s → Str.lstrip s = s.
Proof. destruct s as [|c r]; simpl; [done|]. by intros ->. Qed.

Lemma strip_idem s : Str.strip (Str.strip s) = Str.strip s.
Proof.
  unfold Str.strip.
  rewrite (lstrip_fixed (Str.rstrip _)), rstrip_idem; [done|].
  apply rstrip_starts_clean, lstrip_starts_clean.
Qed.

(** ** Normalization *)

Lemma normalize_unfold x :
  normalize x
  = Str.remove_char "_" (Str.remove_char "-" (Str.lower (Str.strip x))).
Proof. by destruct x. Qed.

Lemma normalize_no_dash x : Str.has_char "-" (normalize x) = false.
Proof.
  rewrite normalize_unfold, !has_char_remove_char. simpl.
  by rewrite andb_false_r.
Qed.

Lemma normalize_no_underscore x : Str.has_char "_" (normalize x) = false.
Proof.
  rewrite normalize_unfold, has_char_remove_char. simpl.
  by rewrite andb_false_r.
Qed.

Lemma normalize_lowered c x :
  Str.has_char c (normalize x) = true → Str.lower_char c = c.
Proof.
  rewrite normalize_unfold, !has_char_remove_char.
  intros [[H _]%andb_true_iff _]%andb_true_iff.
  by apply has_char_lower in H.
Qed.

(** On a normalized string only [strip] is left to act. *)
Lemma normalize_normalized x : normalize (normalize x) = Str.strip (normalize x).
Proof.
  rewrite (normalize_unfold (normalize x)).
  assert (Hl : Str.lower (Str.strip (normalize x)) = Str.strip (normalize x)).
  { apply lower_fixed. intros c Hc%has_char_strip.
    by apply normalize_lowered in Hc. }
  rewrite Hl.
  assert (Hd : Str.has_char "-" (Str.strip (normalize x)) = false).
  { destruct (Str.has_char "-" (Str.strip (normalize x))) eqn:H; [|done].
    apply has_char_strip in H. by rewrite normalize_no_dash in H. }
  assert (Hu : Str.has_char "_" (Str.strip (normalize x)) = false).
  { destruct (Str.has_char "_" (Str.strip (normalize x))) eqn:H; [|done].
    apply has_char_strip in H. by rewrite normalize_no_underscore in H. }
  by rewrite (remove_char_fixed _ _ Hd), (remove_char_fixed _ _ Hu).
Qed.

Lemma normalize_without_dashes x :
  Str.has_char "-" x = false → Str.has_char "_" x = false →
  normalize x = Str.lower (Str.strip x).
Proof.
  intros Hd Hu. rewrite normalize_unfold.
  rewrite !remove_char_fixed; [done| |].
  - rewrite has_char_lower_dash.
    destruct (Str.has_char "-" (Str.strip x)) eqn:H; [|done].
    apply has_char_strip in H. congruence.
  - rewrite remove_char_fixed.
    + rewrite has_char_lower_underscore.
      destruct (Str.has_char "_" (Str.strip x)) eqn:H; [|done].
      apply has_char_strip in H. congruence.
    + rewrite has_char_lower_dash.
      destruct (Str.has_char "-" (Str.strip x)) eqn:H; [|done].
      apply has_char_strip in H. congruence.
Qed.

(** The delimiter goes through [normalize] untouched. *)
Lemma normalize_keeps_bar x :
  Str.has_char "|" (normalize x) = Str.has_char "|" x.
Proof.
  rewrite normalize_unfold, !has_char_remove_char. simpl.
  rewrite !andb_true_r, has_char_lower_bar.
  by apply has_char_strip_keep.
Qed.

(** C3 (as the specification states it) fails: stripping the hyphen of
    ["- a"] uncovers a leading blank that the second call trims. *)
Lemma normalize_not_idempotent :
  normalize "- a" = " a" ∧ normalize (normalize "- a") = "a"
  ∧ normalize (normalize "- a") ≠ normalize "- a".
Proof. split; [reflexivity|]. split; [reflexivity|]. by vm_compute. Qed.

(** C3, amended: applying [normalize] to a normalized string only trims it,
    [normalize(normalize(x)) == normalize(x).strip()]; so [normalize] is
    idempotent on every string without ["-"] and ["_"]; and it maps both
    ["Big-Data"] and ["big_data"] to ["bigdata"]. *)
Theorem normalize_idempotent_up_to_strip :
  (∀ x, normalize (normalize x) = Str.strip (normalize x))
  ∧ (∀ x, Str.has_char "-" x = false → Str.has_char "_" x = false →
          normalize (normalize x) = normalize x)
  ∧ normalize "Big-Data" = "bigdata"
  ∧ normalize "big_data" = "bigdata".
Proof.
  split; [apply normalize_normalized|].
  split; [|by split].
  intros x Hd Hu.
  rewrite normalize_normalized, (normalize_without_dashes x Hd Hu).
  by rewrite strip_lower, strip_idem.
Qed.

Lemma normalize_idempotent_up_to_strip_witness :
  Str.has_char "-" " Big Data " = false
  ∧ Str.has_char "_" " Big Data " = false
  ∧ normalize (normalize " Big Data ") = normalize " Big Data ".
Proof.
  split; [reflexivity|]. split; [reflexivity|].
  apply (proj1 (proj2 normalize_idempotent_up_to_strip)); reflexivity.
Defined.

(** ** Splitting at the delimiter *)

Lemma split_not_nil sep s : Str.split sep s ≠ [].
Proof.
  destruct s as [|c r]; simpl; [done|].
  destruct (Ascii.eqb c sep); [done|]. by destruct (Str.split sep r).
Qed.

Lemma split_parts_free sep s part :
  part ∈ Str.split sep s → Str.has_char sep part = false.
Proof.
  revert part. induction s as [|c r IH]; simpl; intros part Hin.
  - by apply list_elem_of_singleton in Hin as ->.
  - destruct (Ascii.eqb c sep) eqn:Hc.
    + apply elem_of_cons in Hin as [->|Hin]; [done|by apply IH].
    + destruct (Str.split sep r) as [|h t] eqn:Hs.
      * apply list_elem_of_singleton in Hin as ->. simpl. by rewrite Hc.
      * apply elem_of_cons in Hin as [->|Hin].
        -- simpl. rewrite Hc. simpl. apply IH. by left.
        -- apply IH. by right.
Qed.

Lemma split_two_parts sep s :
  Str.has_char sep s = true → 2 ≤ length (Str.split sep s).
Proof.
  induction s as [|c r IH]; simpl; [done|].
  destruct (Ascii.eqb c sep) eqn:Hc; simpl.
  - intros _. pose proof (split_not_nil sep r).
    destruct (Str.split sep r); [done|simpl; lia].
  - intros H. specialize (IH H).
    destruct (Str.split sep r) as [|h t]; simpl in *; lia.
Qed.

Lemma parts_of_free skill_phrase part :
  part ∈ parts_of skill_phrase → Str.has_char "|" part = false.
Proof.
  unfold parts_of. intros (raw & -> & Hraw)%list_elem_of_fmap.
  rewrite normalize_keeps_bar. by apply split_parts_free in Hraw.
Qed.

Lemma parts_of_length skill_phrase :
  length (parts_of skill_phrase) = length (Str.split "|" skill_phrase).
Proof. unfold parts_of. by rewrite length_map. Qed.

(** ** The loops of the strategies *)

Lemma scan_profiles_omap pick structured_data :
  scan_profiles pick structured_data = omap pick structured_data.
Proof.
  unfold scan_profiles.
  assert (H : ∀ acc,
    foldl (fun matches profile =>
             match pick profile with
             | Some m => matches ++ [m]
             | None => matches
             end) acc structured_data = acc ++ omap pick structured_data).
  { induction structured_data as [|p data IH]; intros acc; simpl.
    - by rewrite app_nil_r.
    - rewrite IH. destruct (pick p); [|done]. by rewrite <- app_assoc. }
  apply H.
Qed.

Lemma first_hit_Some {A} (test : A → bool) xs x :
  first_hit test xs = Some x ↔ first_with (fun y => test y = true) xs x.
Proof.
  induction xs as [|y rest IH]; simpl.
  - split; [done|]. intros (pre & post & H & _). by destruct pre.
  - destruct (test y) eqn:Hy.
    + split.
      * intros [= ->]. exists [], rest. split; [done|]. split; [done|].
        intros z Hz. by apply elem_of_nil in Hz.
      * intros ([|z pre] & post & H & Hx & Hpre); simplify_eq/=; [done|].
        exfalso. apply (Hpre z); [by left|done].
    + rewrite IH. split.
      * intros (pre & post & -> & Hx & Hpre). exists (y :: pre), post.
        split; [done|]. split; [done|].
        intros z [->|Hz]%elem_of_cons; [congruence|by apply Hpre].
      * intros ([|z pre] & post & H & Hx & Hpre); simpl in H.
        { injection H as -> _. congruence. }
        injection H as _ ->.
        exists pre, post. split; [done|]. split; [done|].
        intros w Hw. apply Hpre. by right.
Qed.

Lemma first_hit_is_Some {A} (test : A → bool) xs :
  is_Some (first_hit test xs) ↔ ∃ x, x ∈ xs ∧ test x = true.
Proof.
  induction xs as [|y rest IH]; simpl.
  - split; [by intros []|]. intros (x & Hx & _). by apply elem_of_nil in Hx.
  - destruct (test y) eqn:Hy.
    + split; [|done]. intros _. exists y. split; [by left|done].
    + rewrite IH. split.
      * intros (x & Hx & Ht). exists x. split; [by right|done].
      * intros (x & [->|Hx]%elem_of_cons & Ht); [congruence|by exists x].
Qed.

Lemma first_with_ext {A} (P Q : A → Prop) xs x :
  (∀ y, P y ↔ Q y) → first_with P xs x ↔ first_with Q xs x.
Proof.
  intros HPQ. unfold first_with.
  split; intros (pre & post & ? & ? & Hpre); exists pre, post;
    (split; [done|]); (split; [by apply HPQ|]);
    intros y Hy Hq; apply (Hpre y Hy); by apply HPQ.
Qed.

Lemma first_with_elem {A} (P : A → Prop) xs x :
  first_with P xs x → x ∈ xs ∧ P x.
Proof.
  intros (pre & post & -> & ? & _). split; [|done].
  apply elem_of_app. right. by left.
Qed.

Lemma all_parts_in_spec skill_parts nm :
  all_parts_in skill_parts nm = true ↔ contains_all skill_parts nm.
Proof.
  unfold all_parts_in, contains_all. rewrite forallb_forall.
  split; intros H part Hp; apply H; by apply list_elem_of_In.
Qed.

Lemma any_part_in_spec skill_parts nm :
  any_part_in skill_parts nm = true ↔ contains_some skill_parts nm.
Proof.
  unfold any_part_in, contains_some. rewrite existsb_exists.
  split; intros (part & Hp & Hc); exists part; (split; [|done]);
    by apply list_elem_of_In.
Qed.

(** What a strategy over the skills records, for any test. *)
Lemma elem_of_scan_skills (test : Skill → bool) (P : Skill → Prop)
    structured_data m :
  (∀ s, test s = true ↔ P s) →
  m ∈ scan_profiles (fun profile =>
        skill_match profile <$> first_hit test (skills_struct profile))
      structured_data
  ↔ ∃ p s, p ∈ structured_data ∧ m = skill_match p s
           ∧ first_with P (skills_struct p) s.
Proof.
  intros HP. rewrite scan_profiles_omap, list_elem_of_omap.
  split.
  - intros (p & Hp & Hm).
    destruct (first_hit test (skills_struct p)) as [s|] eqn:Hs;
      simplify_eq/=.
    exists p, s. split; [done|]. split; [done|].
    apply (first_with_ext (fun y => test y = true)); [done|].
    by apply first_hit_Some.
  - intros (p & s & Hp & -> & Hs). exists p. split; [done|].
    apply (first_with_ext (fun y => test y = true)) in Hs; [|done].
    apply first_hit_Some in Hs. by rewrite Hs.
Qed.

Lemma elem_of_scan_courses (test : Course → bool) (P : Course → Prop)
    structured_data m :
  (∀ c, test c = true ↔ P c) →
  m ∈ scan_profiles (fun profile =>
        course_match profile <$> first_hit test (courses_struct profile))
      structured_data
  ↔ ∃ p c, p ∈ structured_data ∧ m = course_match p c
           ∧ first_with P (courses_struct p) c.
Proof.
  intros HP. rewrite scan_profiles_omap, list_elem_of_omap.
  split.
  - intros (p & Hp & Hm).
    destruct (first_hit test (courses_struct p)) as [c|] eqn:Hc;
      simplify_eq/=.
    exists p, c. split; [done|]. split; [done|].
    apply (first_with_ext (fun y => test y = true)); [done|].
    by apply first_hit_Some.
  - intros (p & c & Hp & -> & Hc). exists p. split; [done|].
    apply (first_with_ext (fun y => test y = true)) in Hc; [|done].
    apply first_hit_Some in Hc. by rewrite Hc.
Qed.

Lemma elem_of_find_exact skill_phrase structured_data m :
  m ∈ find_skill_matches skill_phrase structured_data false
  ↔ ∃ p s, p ∈ structured_data ∧ m = skill_match p s
           ∧ first_with (exact_skill skill_phrase) (skills_struct p) s.
Proof.
  apply elem_of_scan_skills. intros s. unfold exact_skill. simpl.
  destruct (String.eqb _ _) eqn:He.
  - apply String.eqb_eq in He. by split.
  - apply String.eqb_neq in He. split; [done|]. intros H. by destruct He.
Qed.

Lemma elem_of_find_partial skill_phrase structured_data m :
  m ∈ find_skill_matches skill_phrase structured_data true
  ↔ ∃ p s, p ∈ structured_data ∧ m = skill_match p s
           ∧ first_with (partial_skill skill_phrase) (skills_struct p) s.
Proof.
  apply elem_of_scan_skills. intros s.
  unfold partial_skill, exact_skill, or_skill, parts_of. simpl.
  destruct (String.eqb _ _) eqn:He.
  - apply String.eqb_eq in He. split; [by left|done].
  - apply String.eqb_neq in He. rewrite any_part_in_spec.
    split; [by right|]. intros [H|H]; [by destruct He|done].
Qed.

Lemma elem_of_find_and skill_parts structured_data m :
  m ∈ find_and_matches skill_parts structured_data
  ↔ ∃ p s, p ∈ structured_data ∧ m = skill_match p s
           ∧ first_with (and_skill skill_parts) (skills_struct p) s.
Proof.
  apply elem_of_scan_skills. intros s. apply all_parts_in_spec.
Qed.

Lemma elem_of_find_or skill_parts structured_data m :
  m ∈ find_or_matches skill_parts structured_data
  ↔ ∃ p s, p ∈ structured_data ∧ m = skill_match p s
           ∧ first_with (or_skill skill_parts) (skills_struct p) s.
Proof.
  apply elem_of_scan_skills. intros s. apply any_part_in_spec.
Qed.

Lemma elem_of_find_course skill_phrase structured_data m :
  m ∈ find_course_matches skill_phrase structured_data
  ↔ ∃ p c, p ∈ structured_data ∧ m = course_match p c
           ∧ first_with (related_course skill_phrase) (courses_struct p) c.
Proof.
  apply elem_of_scan_courses. intros c. unfold related_course.
  rewrite orb_true_iff. by rewrite any_part_in_spec.
Qed.

(** ** The merged list of the aggregator *)

Lemma elem_of_existing_ids top_matches i :
  i ∈ existing_ids top_matches ↔ ∃ m, m ∈ top_matches ∧ match_id m = i.
Proof.
  unfold existing_ids. rewrite elem_of_list_to_set.
  change (map match_id top_matches) with (match_id <$> top_matches).
  rewrite list_elem_of_fmap. split.
  - intros (m & -> & Hm). by exists m.
  - intros (m & Hm & <-). by exists m.
Qed.

Lemma elem_of_extend_tier t tier top_matches m :
  m ∈ extend_tier t tier top_matches
  ↔ m ∈ top_matches
    ∨ ∃ m0, m0 ∈ tier ∧ m = set_match_type t m0
            ∧ match_id m0 ∉ existing_ids top_matches.
Proof.
  unfold extend_tier. rewrite elem_of_app, list_elem_of_filter.
  change (map (set_match_type t) tier) with (set_match_type t <$> tier).
  rewrite list_elem_of_fmap. split.
  - intros [?|(Hid & m0 & -> & Hm0)]; [by left|]. right. by exists m0.
  - intros [?|(m0 & Hm0 & -> & Hid)]; [by left|]. right.
    split; [done|]. by exists m0.
Qed.

Lemma extend_tier_nil t tier :
  extend_tier t tier [] = map (set_match_type t) tier.
Proof.
  unfold extend_tier. simpl.
  induction (map (set_match_type t) tier) as [|m l IH]; [done|].
  rewrite filter_cons_True; [by rewrite IH|]. unfold existing_ids. simpl.
  apply not_elem_of_empty.
Qed.

Lemma extend_tier_ids_sublist t tier top_matches :
  map match_id (filter (fun m => match_id m ∉ existing_ids top_matches)
                  (map (set_match_type t) tier))
  `sublist_of` map match_id tier.
Proof.
  induction tier as [|m0 tier IH]; simpl; [done|].
  rewrite filter_cons. destruct (decide _); simpl.
  - by apply sublist_skip.
  - by apply sublist_cons.
Qed.

Lemma omap_ids_sublist (pick : Profile → option Match) structured_data :
  (∀ p m0, pick p = Some m0 → m_profile m0 = p) →
  map match_id (omap pick structured_data)
  `sublist_of` map empID structured_data.
Proof.
  intros Hpick. induction structured_data as [|p data IH]; simpl; [done|].
  destruct (pick p) as [m0|] eqn:Hp; simpl.
  - unfold match_id at 1. rewrite (Hpick _ _ Hp). by apply sublist_skip.
  - by apply sublist_cons.
Qed.

Section Aggregator.
Variable skill_phrase : string.
Variable structured_data : list Profile.
Hypothesis distinct_ids : NoDup (map empID structured_data).

Lemma profile_of_id p q :
  p ∈ structured_data → q ∈ structured_data → empID p = empID q → p = q.
Proof using distinct_ids.
  clear skill_phrase. revert distinct_ids.
  induction structured_data as [|r data IH]; simpl; intros Hnd Hp Hq Hid.
  - by apply elem_of_nil in Hp.
  - apply NoDup_cons in Hnd as [Hr Hnd].
    assert (Hmem : ∀ x, x ∈ data → empID x ∈ map empID data).
    { intros x Hx. change (map empID data) with (empID <$> data).
      by apply list_elem_of_fmap_2. }
    apply elem_of_cons in Hp as [->|Hp], Hq as [->|Hq]; [done| | |by apply IH].
    + destruct Hr. rewrite Hid. by apply Hmem.
    + destruct Hr. rewrite <- Hid. by apply Hmem.
Qed.

Lemma tier_inv_nil : tier_inv skill_phrase structured_data [] [].
Proof.
  split; [constructor|]. split.
  - intros m Hm. by apply elem_of_nil in Hm.
  - intros p t _ Ht. by apply elem_of_nil in Ht.
Qed.

(** A tier that matches no profile leaves the list as it is. *)
Lemma tier_inv_skip done top_matches t :
  tier_inv skill_phrase structured_data done top_matches →
  (∀ t', t' ∈ done → priority t' < priority t) →
  (∀ p, ¬ tier_matches skill_phrase t p) →
  tier_inv skill_phrase structured_data (done ++ [t]) top_matches.
Proof.
  intros (Hnd & Htag & Hcov) Hprio Hnone. split; [done|]. split.
  - intros m Hm. destruct (Htag m Hm) as (t0 & Ht0 & Hty & Hp & Hmt & Hhi).
    exists t0. split; [apply elem_of_app; by left|].
    do 3 (split; [done|]).
    intros t' [Ht'|Ht']%elem_of_app Hlt; [by apply Hhi|].
    apply list_elem_of_singleton in Ht' as ->. apply Hnone.
  - intros p t' Hp [Ht'|Ht']%elem_of_app Hmt; [by eapply Hcov|].
    apply list_elem_of_singleton in Ht' as ->. by destruct (Hnone p).
Qed.

(** A tier that ran joins the list. *)
Lemma tier_inv_step done top_matches t (pick : Profile → option Match) :
  tier_inv skill_phrase structured_data done top_matches →
  (∀ t', t' ∈ done → priority t' < priority t) →
  (∀ p m0, pick p = Some m0 → m_profile m0 = p) →
  (∀ p, is_Some (pick p) ↔ tier_matches skill_phrase t p) →
  tier_inv skill_phrase structured_data (done ++ [t])
    (extend_tier t (omap pick structured_data) top_matches).
Proof using distinct_ids.
  intros (Hnd & Htag & Hcov) Hprio Hprof Hsome.
  split; [|split].
  - unfold extend_tier.
    change (map match_id (?a ++ ?b)) with (match_id <$> (a ++ b)).
    rewrite fmap_app. apply NoDup_app. split; [done|]. split.
    + intros i Hi Hi'.
      apply list_elem_of_fmap in Hi' as (m & -> & Hm).
      apply list_elem_of_filter in Hm as [Hm _]. apply Hm.
      apply elem_of_existing_ids.
      apply list_elem_of_fmap in Hi as (m' & Heq & Hm'). by exists m'.
    + eapply sublist_NoDup; [exact distinct_ids|].
      etrans; [apply extend_tier_ids_sublist|].
      by apply omap_ids_sublist.
  - intros m [Hm|(m0 & Hm0 & -> & Hnew)]%elem_of_extend_tier.
    + destruct (Htag m Hm) as (t0 & Ht0 & Hty & Hp & Hmt & Hhi).
      exists t0. split; [apply elem_of_app; by left|].
      do 3 (split; [done|]).
      intros t' [Ht'|Ht']%elem_of_app Hlt; [by apply Hhi|].
      apply list_elem_of_singleton in Ht' as ->.
      specialize (Hprio _ Ht0). lia.
    + apply list_elem_of_omap in Hm0 as (p & Hp & Hpick).
      pose proof (Hprof _ _ Hpick) as Hmp. simpl. rewrite Hmp.
      exists t. split; [apply elem_of_app; right; by left|].
      split; [done|]. split; [done|]. split.
      * apply Hsome. by rewrite Hpick.
      * intros t' [Ht'|Ht']%elem_of_app Hlt Hmt.
        -- apply Hnew. unfold match_id. rewrite Hmp. by eapply Hcov.
        -- apply list_elem_of_singleton in Ht' as ->. lia.
  - intros p t' Hp [Ht'|Ht']%elem_of_app Hmt; apply elem_of_existing_ids.
    + apply (Hcov p t' Hp Ht'), elem_of_existing_ids in Hmt
        as (m & Hm & Hid).
      exists m. split; [|done]. apply elem_of_extend_tier. by left.
    + apply list_elem_of_singleton in Ht' as ->.
      apply Hsome in Hmt as [m0 Hpick].
      pose proof (Hprof _ _ Hpick) as Hmp.
      destruct (decide (match_id m0 ∈ existing_ids top_matches))
        as [Hin|Hout].
      * apply elem_of_existing_ids in Hin as (m & Hm & Hid).
        exists m. split; [apply elem_of_extend_tier; by left|].
        rewrite Hid. unfold match_id. by rewrite Hmp.
      * exists (set_match_type t m0). split.
        -- apply elem_of_extend_tier. right. exists m0.
           split; [|done]. apply list_elem_of_omap. by exists p.
        -- unfold match_id. simpl. by rewrite Hmp.
Qed.
End Aggregator.

(** The tests of the strategies, as properties of a skill or course. *)
Lemma skill_test_spec skill_phrase (partial : bool) s :
  (let name := normalize (s_name s) in
   if String.eqb (normalize skill_phrase) name then true
   else partial && any_part_in (map normalize (Str.split "|" skill_phrase))
                     name) = true
  ↔ exact_skill skill_phrase s
    ∨ (partial = true ∧ or_skill (parts_of skill_phrase) s).
Proof.
  unfold exact_skill, or_skill, parts_of. simpl.
  destruct (String.eqb _ _) eqn:He.
  - apply String.eqb_eq in He. split; [by left|done].
  - apply String.eqb_neq in He.
    rewrite andb_true_iff, any_part_in_spec.
    split; [by right|]. intros [H|H]; [by destruct He|done].
Qed.

Lemma course_test_spec skill_phrase c :
  (let course_name := normalize (c_name c) in
   Str.contains (normalize skill_phrase) course_name
   || any_part_in (Str.split "|" (normalize skill_phrase)) course_name) = true
  ↔ related_course skill_phrase c.
Proof.
  unfold related_course. simpl. by rewrite orb_true_iff, any_part_in_spec.
Qed.

Lemma skill_pick_is_Some (test : Skill → bool) (P : Skill → Prop) p :
  (∀ s, test s = true ↔ P s) →
  is_Some (skill_match p <$> first_hit test (skills_struct p))
  ↔ ∃ s, s ∈ skills_struct p ∧ P s.
Proof.
  intros HP. rewrite fmap_is_Some, first_hit_is_Some.
  split; intros (s & Hs & Ht); exists s; (split; [done|]); by apply HP.
Qed.

Lemma course_pick_is_Some (test : Course → bool) (P : Course → Prop) p :
  (∀ c, test c = true ↔ P c) →
  is_Some (course_match p <$> first_hit test (courses_struct p))
  ↔ ∃ c, c ∈ courses_struct p ∧ P c.
Proof.
  intros HP. rewrite fmap_is_Some, first_hit_is_Some.
  split; intros (c & Hc & Ht); exists c; (split; [done|]); by apply HP.
Qed.

Lemma skill_pick_profile (test : Skill → bool) p m0 :
  skill_match p <$> first_hit test (skills_struct p) = Some m0 →
  m_profile m0 = p.
Proof. destruct (first_hit _ _); by intros [= <-]. Qed.

Lemma course_pick_profile (test : Course → bool) p m0 :
  course_match p <$> first_hit test (courses_struct p) = Some m0 →
  m_profile m0 = p.
Proof. destruct (first_hit _ _); by intros [= <-]. Qed.

Lemma exact_test_spec skill_phrase s :
  (let name := normalize (s_name s) in
   if String.eqb (normalize skill_phrase) name then true
   else false && any_part_in (map normalize (Str.split "|" skill_phrase))
                   name) = true
  ↔ exact_skill skill_phrase s.
Proof.
  rewrite skill_test_spec. split; [|by left]. by intros [?|[? _]].
Qed.

Lemma partial_test_spec skill_phrase s :
  (let name := normalize (s_name s) in
   if String.eqb (normalize skill_phrase) name then true
   else true && any_part_in (map normalize (Str.split "|" skill_phrase))
                  name) = true
  ↔ partial_skill skill_phrase s.
Proof.
  rewrite skill_test_spec. unfold partial_skill.
  split; (intros [?|?]; [by left|right]); [by destruct H|done].
Qed.

(** Which profiles a strategy over the skills records a match for. *)
Lemma scan_skills_profile (test : Skill → bool) (P : Skill → Prop)
    structured_data p :
  (∀ s, test s = true ↔ P s) → p ∈ structured_data →
  (∃ m, m ∈ scan_profiles (fun profile =>
            skill_match profile <$> first_hit test (skills_struct profile))
          structured_data ∧ m_profile m = p)
  ↔ ∃ s, s ∈ skills_struct p ∧ P s.
Proof.
  intros HP Hp. rewrite scan_profiles_omap. split.
  - intros (m & (q & Hq & Hpick)%list_elem_of_omap & <-).
    pose proof (skill_pick_profile _ _ _ Hpick) as ->.
    apply (skill_pick_is_Some test P q HP). by rewrite Hpick.
  - intros Hex. apply (skill_pick_is_Some test P p HP) in Hex as [m Hm].
    exists m. split; [|by apply skill_pick_profile in Hm].
    apply list_elem_of_omap. by exists p.
Qed.

Local Ltac earlier_tiers :=
  let t' := fresh "t" in
  let Ht' := fresh "Ht" in
  intros t' Ht';
  repeat (apply elem_of_cons in Ht' as [->|Ht']; [simpl; lia|]);
  by apply elem_of_nil in Ht'.

Lemma aggregate_inv skill_phrase structured_data :
  NoDup (map empID structured_data) →
  tier_inv skill_phrase structured_data all_tiers
    (aggregate skill_phrase structured_data).
Proof.
  intros Hids. unfold aggregate.
  rewrite app_nil_l, <- (extend_tier_nil EXACT).
  unfold find_skill_matches, find_and_matches, find_or_matches,
    find_course_matches.
  rewrite !scan_profiles_omap. cbv zeta.
  change all_tiers with ([EXACT; AND; OR; PARTIAL] ++ [COURSE]).
  apply (tier_inv_step _ _ Hids); [|earlier_tiers| |].
  2:{ intros p m0. apply course_pick_profile. }
  2:{ intros p. etrans; [apply course_pick_is_Some, course_test_spec|]. done. }
  change [EXACT; AND; OR; PARTIAL] with ([EXACT; AND; OR] ++ [PARTIAL]).
  apply (tier_inv_step _ _ Hids); [|earlier_tiers| |].
  2:{ intros p m0. apply skill_pick_profile. }
  2:{ intros p. etrans; [apply skill_pick_is_Some, skill_test_spec|].
      simpl. unfold partial_skill. split.
      - intros (s & Hs & [He|[_ Ho]]); exists s; (split; [done|]);
          [by left|by right].
      - intros (s & Hs & [He|Ho]); exists s; (split; [done|]);
          [by left|by right]. }
  assert (H1 : tier_inv skill_phrase structured_data [EXACT]
    (extend_tier EXACT
       (omap (fun profile => skill_match profile <$>
          first_hit (fun s =>
            let name := normalize (s_name s) in
            if String.eqb (normalize skill_phrase) name then true
            else false && any_part_in
                   (map normalize (Str.split "|" skill_phrase)) name)
            (skills_struct profile)) structured_data) [])).
  { change [EXACT] with ([] ++ [EXACT]).
    apply (tier_inv_step _ _ Hids); [apply tier_inv_nil|earlier_tiers| |].
    - intros p m0. apply skill_pick_profile.
    - intros p. etrans; [apply skill_pick_is_Some, skill_test_spec|].
      simpl. split.
      + intros (s & Hs & [He|[? _]]); [by exists s|done].
      + intros (s & Hs & He). exists s. split; [done|by left]. }
  destruct (1 <? length (parts_of skill_phrase)) eqn:Hlen.
  - apply Nat.ltb_lt in Hlen.
    change [EXACT; AND; OR] with ([EXACT; AND] ++ [OR]).
    apply (tier_inv_step _ _ Hids); [|earlier_tiers| |].
    2:{ intros p m0. apply skill_pick_profile. }
    2:{ intros p.
        etrans; [apply skill_pick_is_Some; intros s; apply any_part_in_spec|].
        simpl. unfold or_skill. split; [by split; [lia|]|by intros [_ ?]]. }
    change [EXACT; AND] with ([EXACT] ++ [AND]).
    apply (tier_inv_step _ _ Hids); [exact H1|earlier_tiers| |].
    + intros p m0. apply skill_pick_profile.
    + intros p.
      etrans; [apply skill_pick_is_Some; intros s; apply all_parts_in_spec|].
      simpl. unfold and_skill. split; [by split; [lia|]|by intros [_ ?]].
  - apply Nat.ltb_ge in Hlen.
    change [EXACT; AND; OR] with ([EXACT; AND] ++ [OR]).
    apply tier_inv_skip; [|earlier_tiers|intros p [Hl _]; lia].
    change [EXACT; AND] with ([EXACT] ++ [AND]).
    apply tier_inv_skip; [exact H1|earlier_tiers|intros p [Hl _]; lia].
Qed.

Lemma priority_zero t : priority t = 0 → t = EXACT.
Proof. by destruct t. Qed.

(** C4: on profiles with pairwise distinct employee IDs the merged list of
    the symbolic tiers holds every identity at most once; every entry is
    tagged with a tier that matched its profile, and no tier of higher
    priority (EXACT > AND > OR > PARTIAL > COURSE) matches it; every profile
    some tier matches is in the list; in particular a profile with a skill
    that matches the phrase exactly is tagged EXACT, never PARTIAL. *)
Theorem aggregate_one_match_per_profile skill_phrase structured_data :
  NoDup (map empID structured_data) →
  let top_matches := aggregate skill_phrase structured_data in
  NoDup (map match_id top_matches)
  ∧ (∀ m, m ∈ top_matches →
       ∃ t, m_match_type m = Some t
            ∧ m_profile m ∈ structured_data
            ∧ tier_matches skill_phrase t (m_profile m)
            ∧ ∀ t', priority t' < priority t →
                    ¬ tier_matches skill_phrase t' (m_profile m))
  ∧ (∀ p t, p ∈ structured_data → tier_matches skill_phrase t p →
            ∃ m, m ∈ top_matches ∧ m_profile m = p)
  ∧ (∀ p m, p ∈ structured_data → tier_matches skill_phrase EXACT p →
            m ∈ top_matches → m_profile m = p →
            m_match_type m = Some EXACT ∧ m_match_type m ≠ Some PARTIAL).
Proof.
  intros Hids top_matches.
  destruct (aggregate_inv skill_phrase structured_data Hids)
    as (Hnd & Htag & Hcov).
  assert (Hall : ∀ t, t ∈ all_tiers).
  { intros []; apply list_elem_of_In; simpl; tauto. }
  assert (Htag' : ∀ m, m ∈ top_matches →
    ∃ t, m_match_type m = Some t ∧ m_profile m ∈ structured_data
         ∧ tier_matches skill_phrase t (m_profile m)
         ∧ ∀ t', priority t' < priority t →
                 ¬ tier_matches skill_phrase t' (m_profile m)).
  { intros m Hm. destruct (Htag m Hm) as (t & _ & Hty & Hp & Hmt & Hhi).
    exists t. do 3 (split; [done|]). intros t' Hlt. by apply Hhi. }
  split; [done|]. split; [done|]. split.
  - intros p t Hp Hmt.
    apply (Hcov p t Hp (Hall t)), elem_of_existing_ids in Hmt
      as (m & Hm & Hid).
    exists m. split; [done|].
    destruct (Htag' m Hm) as (_ & _ & Hmp & _).
    by apply (profile_of_id structured_data Hids).
  - intros p m Hp Hex Hm Hmp.
    destruct (Htag' m Hm) as (t & Hty & _ & _ & Hhi).
    assert (t = EXACT) as ->.
    { apply priority_zero. destruct (priority t) eqn:Hpr; [done|].
      destruct (Hhi EXACT); [simpl; lia|by rewrite Hmp]. }
    split; [done|]. by rewrite Hty.
Qed.

Lemma aggregate_one_match_per_profile_witness :
  let data :=
    [a_profile "E1" [a_skill "Big Data" 24 "YES" "NO" "EXPERT"] [];
     a_profile "E2" [a_skill "Big Data Tools" 12 "NO" "NO" EmptyString] []] in
  NoDup (map empID data)
  ∧ NoDup (map match_id (aggregate "big data" data))
  ∧ map m_match_type (aggregate "big data" data)
    = [Some EXACT; Some PARTIAL].
Proof.
  intros data.
  assert (Hids : NoDup (map empID data)).
  { by apply (bool_decide_unpack _). }
  split; [exact Hids|]. split; [|reflexivity].
  apply (aggregate_one_match_per_profile "big data" data Hids).
Defined.

(** C10: [normalize] keeps the delimiter, so for a phrase with a ["|"] (which
    has two parts or more) the EXACT tier records a skill only if its
    normalized name is the whole normalized phrase, delimiter included; a
    skill whose normalized name is one of the parts is never recorded. *)
Theorem exact_tier_needs_whole_phrase skill_phrase structured_data :
  Str.has_char "|" skill_phrase = true →
  2 ≤ length (parts_of skill_phrase)
  ∧ Str.has_char "|" (normalize skill_phrase) = true
  ∧ (∀ m, m ∈ find_skill_matches skill_phrase structured_data false →
       ∃ s, m_skill m = Some s ∧ s ∈ skills_struct (m_profile m)
            ∧ normalize (s_name s) = normalize skill_phrase
            ∧ normalize (s_name s) ∉ parts_of skill_phrase)
  ∧ (∀ p, p ∈ structured_data →
       (∃ m, m ∈ find_skill_matches skill_phrase structured_data false
             ∧ m_profile m = p)
       ↔ ∃ s, s ∈ skills_struct p
              ∧ normalize (s_name s) = normalize skill_phrase).
Proof.
  intros Hbar.
  assert (Hnorm : Str.has_char "|" (normalize skill_phrase) = true).
  { by rewrite normalize_keeps_bar. }
  split; [rewrite parts_of_length; by apply split_two_parts|].
  split; [done|]. split.
  - intros m (p & s & Hp & -> & Hs)%elem_of_find_exact.
    apply first_with_elem in Hs as [Hs He]. unfold exact_skill in He.
    exists s. do 3 (split; [done|]).
    intros Hpart%parts_of_free. congruence.
  - intros p Hp. unfold find_skill_matches.
    apply (scan_skills_profile _ (exact_skill skill_phrase)); [|done].
    intros s. apply exact_test_spec.
Qed.

Lemma exact_tier_needs_whole_phrase_witness :
  let data :=
    [a_profile "E1" [a_skill "Big Data" 24 "YES" "NO" "EXPERT"] [];
     a_profile "E2" [a_skill "Big Data|NLP" 12 "NO" "NO" EmptyString] []] in
  Str.has_char "|" "big data|nlp" = true
  ∧ map match_id (find_skill_matches "big data|nlp" data false) = ["E2"]
  ∧ ∀ m, m ∈ find_skill_matches "big data|nlp" data false →
      ∃ s, m_skill m = Some s ∧ s ∈ skills_struct (m_profile m)
           ∧ normalize (s_name s) = normalize "big data|nlp"
           ∧ normalize (s_name s) ∉ parts_of "big data|nlp".
Proof.
  intros data. split; [reflexivity|]. split; [reflexivity|].
  apply (exact_tier_needs_whole_phrase "big data|nlp" data). reflexivity.
Defined.

(** ** The conjunctive and disjunctive tiers *)

Lemma existing_ids_extend_tier t tier top_matches i :
  i ∈ existing_ids top_matches →
  i ∈ existing_ids (extend_tier t tier top_matches).
Proof.
  intros (m & Hm & Hid)%elem_of_existing_ids. apply elem_of_existing_ids.
  exists m. split; [|done]. apply elem_of_extend_tier. by left.
Qed.

Lemma existing_ids_tier t tier top_matches m0 :
  m0 ∈ tier → match_id m0 ∈ existing_ids (extend_tier t tier top_matches).
Proof.
  intros Hm0.
  destruct (decide (match_id m0 ∈ existing_ids top_matches)) as [Hin|Hout].
  - by apply existing_ids_extend_tier.
  - apply elem_of_existing_ids. exists (set_match_type t m0).
    split; [|done]. apply elem_of_extend_tier. right. by exists m0.
Qed.

Lemma extend_tier_type t tier top_matches m :
  m ∈ extend_tier t tier top_matches →
  m ∈ top_matches ∨ m_match_type m = Some t.
Proof.
  intros [?|(m0 & _ & -> & _)]%elem_of_extend_tier; [by left|by right].
Qed.

(** C8: the conjunctive and the disjunctive tier run only on a phrase of at
    least two parts, and then every profile they find is in the merged list;
    AND records a match for a profile exactly when one of its skills has a
    normalized name containing every part, OR when it contains some part,
    and the skill recorded is the first such skill of the profile; with the
    parts ["nlp"; "bigdata"] the skill "NLP-BigData-Engineering" matches AND,
    a profile with "NLP Basics" alone matches OR and not AND. *)
Theorem and_or_tiers :
  (∀ skill_phrase structured_data m,
     length (parts_of skill_phrase) < 2 →
     m ∈ aggregate skill_phrase structured_data →
     m_match_type m ≠ Some AND ∧ m_match_type m ≠ Some OR)
  ∧ (∀ skill_phrase structured_data m0,
       2 ≤ length (parts_of skill_phrase) →
       m0 ∈ find_and_matches (parts_of skill_phrase) structured_data
       ∨ m0 ∈ find_or_matches (parts_of skill_phrase) structured_data →
       match_id m0 ∈ existing_ids (aggregate skill_phrase structured_data))
  ∧ (∀ skill_parts structured_data p, p ∈ structured_data →
       (∃ m, m ∈ find_and_matches skill_parts structured_data
             ∧ m_profile m = p)
       ↔ ∃ s, s ∈ skills_struct p ∧ and_skill skill_parts s)
  ∧ (∀ skill_parts structured_data p, p ∈ structured_data →
       (∃ m, m ∈ find_or_matches skill_parts structured_data
             ∧ m_profile m = p)
       ↔ ∃ s, s ∈ skills_struct p ∧ or_skill skill_parts s)
  ∧ (∀ skill_parts structured_data m,
       m ∈ find_and_matches skill_parts structured_data
       ↔ ∃ p s, p ∈ structured_data ∧ m = skill_match p s
                ∧ first_with (and_skill skill_parts) (skills_struct p) s)
  ∧ (∀ skill_parts structured_data m,
       m ∈ find_or_matches skill_parts structured_data
       ↔ ∃ p s, p ∈ structured_data ∧ m = skill_match p s
                ∧ first_with (or_skill skill_parts) (skills_struct p) s)
  ∧ (let s1 := a_skill "NLP-BigData-Engineering" 30 "YES" "YES" "EXPERT" in
     let s2 := a_skill "NLP Basics" 6 "NO" "NO" "BEGINNER" in
     let p1 := a_profile "E1" [s1] [] in
     let p2 := a_profile "E2" [s2] [] in
     find_and_matches ["nlp"; "bigdata"] [p1; p2] = [skill_match p1 s1]
     ∧ find_or_matches ["nlp"; "bigdata"] [p1; p2]
       = [skill_match p1 s1; skill_match p2 s2]
     ∧ parts_of "nlp|big-data" = ["nlp"; "bigdata"]
     ∧ aggregate "nlp|big-data" [p1; p2]
       = [set_match_type AND (skill_match p1 s1);
          set_match_type OR (skill_match p2 s2)]).
Proof.
  split; [|split; [|split; [|split; [|split; [|split]]]]].
  - intros skill_phrase structured_data m Hlen. unfold aggregate.
    assert (Hg : (1 <? length (parts_of skill_phrase)) = false)
      by (apply Nat.ltb_ge; lia).
    rewrite Hg. cbv zeta.
    intros [[Hm|Ht]%extend_tier_type|Ht]%extend_tier_type;
      [|by rewrite Ht..].
    rewrite app_nil_l in Hm.
    change (map ?f ?l) with (f <$> l) in Hm.
    apply list_elem_of_fmap in Hm as (m0 & -> & _). done.
  - intros skill_phrase structured_data m0 Hlen Hm0. unfold aggregate.
    assert (Hg : (1 <? length (parts_of skill_phrase)) = true)
      by (apply Nat.ltb_lt; lia).
    rewrite Hg. cbv zeta.
    do 2 apply existing_ids_extend_tier. destruct Hm0 as [Hm0|Hm0].
    + by apply existing_ids_extend_tier, existing_ids_tier.
    + by apply existing_ids_tier.
  - intros skill_parts structured_data p Hp. unfold find_and_matches.
    apply (scan_skills_profile _ (and_skill skill_parts)); [|done].
    intros s. apply all_parts_in_spec.
  - intros skill_parts structured_data p Hp. unfold find_or_matches.
    apply (scan_skills_profile _ (or_skill skill_parts)); [|done].
    intros s. apply any_part_in_spec.
  - apply elem_of_find_and.
  - apply elem_of_find_or.
  - by vm_compute.
Qed.

Lemma and_or_tiers_witness :
  let data :=
    [a_profile "E1" [a_skill "Python 3" 30 "YES" "NO" EmptyString] []] in
  length (parts_of "python") < 2
  ∧ 2 ≤ length (parts_of "java|python")
  ∧ (∀ m, m ∈ aggregate "python" data →
          m_match_type m ≠ Some AND ∧ m_match_type m ≠ Some OR)
  ∧ (∀ m0, m0 ∈ find_and_matches (parts_of "java|python") data
           ∨ m0 ∈ find_or_matches (parts_of "java|python") data →
           match_id m0 ∈ existing_ids (aggregate "java|python" data)).
Proof.
  intros data.
  assert (H1 : length (parts_of "python") < 2) by (vm_compute; lia).
  assert (H2 : 2 ≤ length (parts_of "java|python")) by (vm_compute; lia).
  split; [exact H1|]. split; [exact H2|]. split.
  - intros m. by apply (proj1 and_or_tiers "python" data m).
  - intros m0. by apply (proj1 (proj2 and_or_tiers) "java|python" data m0).
Defined.

(** ** Sort key and ranking *)

Lemma key_ltb_spec (a b : Key) :
  key_ltb a b = true
  ↔ (let '(a1, a2, a3, a4) := a in
     let '(b1, b2, b3, b4) := b in
     a1 < b1 ∨ a1 = b1 ∧ (a2 < b2 ∨ a2 = b2 ∧ (a3 < b3 ∨ a3 = b3 ∧ a4 < b4)))%Z.
Proof.
  destruct a as [[[a1 a2] a3] a4], b as [[[b1 b2] b3] b4]. unfold key_ltb.
  destruct (Z.ltb_spec a1 b1), (Z.eqb_spec a1 b1), (Z.ltb_spec a2 b2),
    (Z.eqb_spec a2 b2), (Z.ltb_spec a3 b3), (Z.eqb_spec a3 b3),
    (Z.ltb_spec a4 b4); simpl; split; (done || lia).
Qed.

Lemma key_ltb_asym (a b : Key) : key_ltb a b = true → key_ltb b a = false.
Proof.
  intros H. destruct (key_ltb b a) eqn:H'; [|done].
  apply key_ltb_spec in H, H'.
  destruct a as [[[a1 a2] a3] a4], b as [[[b1 b2] b3] b4]. lia.
Qed.

(** With two elements the one with the smaller key comes out first. *)
Lemma sorted_pair (a b : Match) ka kb :
  skill_sort_key a = Ok ka → skill_sort_key b = Ok kb →
  key_ltb ka kb = true →
  sorted skill_sort_key [a; b] = Ok [a; b]
  ∧ sorted skill_sort_key [b; a] = Ok [a; b].
Proof.
  intros Ha Hb Hlt. pose proof (key_ltb_asym _ _ Hlt) as Hge.
  unfold sorted. simpl. rewrite Ha, Hb. simpl.
  unfold mbind, result_bind, mret, result_ret. simpl. by rewrite Hlt, Hge.
Qed.

(** C6: the sort key of a match with a skill is the tuple
    (-experienceProjectMths, -1 if isCurrent is YES else 0, 1 if isPrimary is
    YES else 0, -rank) with EXPERT=4, PROFICIENT=3, COMPETENT=2, BEGINNER=1
    and 0 otherwise, compared as a tuple in ascending order: more experience
    sorts first whatever the other fields are (36 months, not current, before
    12 months, current), and with experience and currency equal a skill that
    is not primary sorts before a primary one. *)
Theorem skill_sort_key_order :
  (∀ m s, m_skill m = Some s →
     skill_sort_key m
     = Ok ((- s_experienceProjectMths s,
            if String.eqb (Str.upper (s_isCurrent s)) "YES" then -1 else 0,
            if String.eqb (Str.upper (s_isPrimary s)) "YES" then 1 else 0,
            - proficiency_order (Str.upper (s_proficiency s)))%Z))
  ∧ (proficiency_order "EXPERT" = 4 ∧ proficiency_order "PROFICIENT" = 3
     ∧ proficiency_order "COMPETENT" = 2 ∧ proficiency_order "BEGINNER" = 1
     ∧ proficiency_order EmptyString = 0)%Z
  ∧ (∀ a b sa sb ka kb,
       m_skill a = Some sa → m_skill b = Some sb →
       skill_sort_key a = Ok ka → skill_sort_key b = Ok kb →
       (s_experienceProjectMths sb < s_experienceProjectMths sa)%Z →
       key_ltb ka kb = true
       ∧ sorted skill_sort_key [a; b] = Ok [a; b]
       ∧ sorted skill_sort_key [b; a] = Ok [a; b])
  ∧ (∀ a b sa sb ka kb,
       m_skill a = Some sa → m_skill b = Some sb →
       skill_sort_key a = Ok ka → skill_sort_key b = Ok kb →
       s_experienceProjectMths sa = s_experienceProjectMths sb →
       String.eqb (Str.upper (s_isCurrent sa)) "YES"
       = String.eqb (Str.upper (s_isCurrent sb)) "YES" →
       String.eqb (Str.upper (s_isPrimary sa)) "YES" = false →
       String.eqb (Str.upper (s_isPrimary sb)) "YES" = true →
       key_ltb ka kb = true
       ∧ sorted skill_sort_key [a; b] = Ok [a; b]
       ∧ sorted skill_sort_key [b; a] = Ok [a; b])
  ∧ (let s1 := a_skill "Python" 36 "NO" "NO" EmptyString in
     let s2 := a_skill "Python" 12 "YES" "NO" EmptyString in
     let p1 := a_profile "E1" [s1] [] in
     let p2 := a_profile "E2" [s2] [] in
     let m1 := set_match_type EXACT (skill_match p1 s1) in
     let m2 := set_match_type EXACT (skill_match p2 s2) in
     skill_sort_key m1 = Ok (-36, 0, 0, 0)%Z
     ∧ skill_sort_key m2 = Ok (-12, -1, 0, 0)%Z
     ∧ aggregate "python" [p2; p1] = [m2; m1]
     ∧ rank [m2; m1] = Ok [m1]).
Proof.
  split; [|split; [|split; [|split]]].
  - intros m s Hs. unfold skill_sort_key. by rewrite Hs.
  - done.
  - intros a b sa sb ka kb Hsa Hsb Ha Hb Hexp.
    assert (Hlt : key_ltb ka kb = true).
    { unfold skill_sort_key in Ha, Hb. rewrite Hsa in Ha. rewrite Hsb in Hb.
      injection Ha as <-. injection Hb as <-.
      apply key_ltb_spec. left. lia. }
    split; [done|]. by apply (sorted_pair a b ka kb).
  - intros a b sa sb ka kb Hsa Hsb Ha Hb Hexp Hcur Hpa Hpb.
    assert (Hlt : key_ltb ka kb = true).
    { unfold skill_sort_key in Ha, Hb. rewrite Hsa in Ha. rewrite Hsb in Hb.
      injection Ha as <-. injection Hb as <-.
      rewrite Hcur, Hpa, Hpb, Hexp.
      apply key_ltb_spec. right. split; [done|]. right. split; [done|].
      left. lia. }
    split; [done|]. by apply (sorted_pair a b ka kb).
  - by vm_compute.
Qed.

Lemma skill_sort_key_order_witness :
  let sa := a_skill "Python" 36 "NO" "NO" "BEGINNER" in
  let sb := a_skill "Python 3" 12 "yes" "NO" "EXPERT" in
  let a := set_match_type PARTIAL (skill_match (a_profile "E1" [sa] []) sa) in
  let b := set_match_type PARTIAL (skill_match (a_profile "E2" [sb] []) sb) in
  (s_experienceProjectMths sb < s_experienceProjectMths sa)%Z
  ∧ key_ltb (-36, 0, 0, -1)%Z (-12, -1, 0, -4)%Z = true
  ∧ sorted skill_sort_key [a; b] = Ok [a; b]
  ∧ sorted skill_sort_key [b; a] = Ok [a; b].
Proof.
  intros sa sb a b. split; [by vm_compute|].
  apply (proj1 (proj2 (proj2 skill_sort_key_order)) a b sa sb);
    [reflexivity..|by vm_compute].
Defined.

Lemma insert_sorted_perm {A} (x : Key * A) l : insert_sorted x l ≡ₚ x :: l.
Proof.
  induction l as [|y l IH]; simpl; [done|].
  destruct (key_ltb (fst y) (fst x)); [|done].
  rewrite IH. apply Permutation_swap.
Qed.

Lemma stable_sort_perm {A} (l : list (Key * A)) : stable_sort l ≡ₚ l.
Proof.
  induction l as [|x l IH]; simpl; [done|].
  by rewrite insert_sorted_perm, IH.
Qed.

(** The only exception a [sorted] call can end with is the [KeyError] of
    [skill_sort_key]; otherwise the keys of all elements were computed. *)
Lemma decorate_cons {A} (key : A → result Key) x l :
  decorate key (x :: l)
  = match key x with
    | Ok k => match decorate key l with
              | Ok rest => Ok ((k, x) :: rest)
              | Raise e => Raise e
              end
    | Raise e => Raise e
    end.
Proof. reflexivity. Qed.

Lemma decorate_cases l :
  (∃ d, decorate skill_sort_key l = Ok d ∧ d.*2 = l
        ∧ ∀ m, m ∈ l → is_Some (m_skill m))
  ∨ (decorate skill_sort_key l = Raise (KeyError "skill")
     ∧ ∃ m, m ∈ l ∧ m_skill m = None).
Proof.
  induction l as [|x l IH].
  - left. exists []. split; [done|]. split; [done|].
    intros m Hm. by apply elem_of_nil in Hm.
  - rewrite decorate_cons. unfold skill_sort_key at 1 3.
    destruct (m_skill x) as [s|] eqn:Hs.
    + destruct IH as [(d & -> & Hd & Hall)|[-> (m & Hm & Hnone)]].
      * left. eexists. split; [done|]. split; [by rewrite fmap_cons, Hd|].
        intros m [->|Hm]%elem_of_cons; [by rewrite Hs|by apply Hall].
      * right. split; [done|]. exists m. split; [by right|done].
    + right. split; [done|]. exists x. split; [by left|done].
Qed.

Lemma sorted_cases l :
  (∃ l', sorted skill_sort_key l = Ok l' ∧ l' ≡ₚ l
         ∧ ∀ m, m ∈ l → is_Some (m_skill m))
  ∨ (sorted skill_sort_key l = Raise (KeyError "skill")
     ∧ ∃ m, m ∈ l ∧ m_skill m = None).
Proof.
  unfold sorted.
  destruct (decorate_cases l) as [(d & -> & Hd & Hall)|[-> Hm]]; simpl.
  - left. eexists. split; [done|]. split; [|done].
    change (map snd ?x) with (x.*2). by rewrite stable_sort_perm, Hd.
  - by right.
Qed.

Lemma best_of_cases l :
  (∃ o, best_of l = Ok o ∧ (∀ b, o = Some b → b ∈ l)
        ∧ (o = None → l = []))
  ∨ best_of l = Raise (KeyError "skill").
Proof.
  destruct l as [|x l].
  - left. exists None. by split.
  - unfold best_of.
    destruct (sorted_cases (x :: l)) as [(l' & -> & Hp & _)|[-> _]]; simpl.
    + left. exists (head l'). split; [done|]. split.
      * intros b Hb. rewrite <- Hp. by apply head_Some_elem_of.
      * intros Hh. apply head_None in Hh. subst l'.
        by apply Permutation_nil_l in Hp.
    + by right.
Qed.

(** Whenever a match without a skill is left for step 3, the ranker ends
    with the exception. *)
Lemma rank_raises_without_skill top_matches m :
  m ∈ top_matches → m_match_type m ∉ [Some EXACT; Some AND] →
  m_skill m = None → rank top_matches = Raise (KeyError "skill").
Proof.
  intros Hm Hty Hnone. unfold rank.
  destruct (best_of_cases
    (filter (fun m => m_match_type m = Some EXACT) top_matches))
    as [(be & -> & _)| ->]; [simpl|done].
  assert (Hrest :
    sorted skill_sort_key
      (filter (fun m => m_match_type m ∉ [Some EXACT; Some AND]) top_matches)
    = Raise (KeyError "skill")).
  { destruct (sorted_cases
      (filter (fun m => m_match_type m ∉ [Some EXACT; Some AND]) top_matches))
      as [(l' & _ & _ & Hall)|[-> _]]; [|done].
    destruct (Hall m) as [s Hs]; [by apply list_elem_of_filter|congruence]. }
  destruct be as [b|]; simpl.
  - by rewrite Hrest.
  - destruct (best_of_cases
      (filter (fun m => m_match_type m = Some AND) top_matches))
      as [(ba & -> & _)| ->]; [simpl|done].
    by rewrite Hrest.
Qed.

(** When every match carries a skill the ranker returns the list of the
    two-phase selection: at most three entries, each of them an entry of
    [top_matches], none of them twice. *)
Lemma rank_two_phase top_matches :
  (∀ m, m ∈ top_matches → is_Some (m_skill m)) →
  ∃ final_matches, rank top_matches = Ok final_matches
    ∧ length final_matches ≤ 3
    ∧ final_matches ⊆+ top_matches.
Proof.
  intros Hall. unfold rank.
  set (exacts := filter (fun m => m_match_type m = Some EXACT) top_matches).
  set (ands := filter (fun m => m_match_type m = Some AND) top_matches).
  set (non_exacts :=
    filter (fun m => m_match_type m ∉ [Some EXACT; Some AND]) top_matches).
  assert (Hok : ∀ l, l ⊆ top_matches →
    ∃ l', sorted skill_sort_key l = Ok l' ∧ l' ≡ₚ l).
  { intros l Hl.
    destruct (sorted_cases l) as [(l' & ? & ? & _)|[_ (m & Hm & Hn)]];
      [by exists l'|].
    destruct (Hall m (Hl _ Hm)) as [s Hs]. congruence. }
  assert (Hsub : ∀ (P : Match → Prop) `{!∀ m, Decision (P m)},
    filter P top_matches ⊆ top_matches).
  { intros P ? m [_ ?]%list_elem_of_filter. done. }
  destruct (Hok non_exacts (Hsub _ _)) as (rs & Hrs & Hprs).
  assert (Hsplit : ∀ (P : Match → Prop) `{!∀ m, Decision (P m)} b,
    b ∈ filter P top_matches →
    (∀ m, m_match_type m ∉ [Some EXACT; Some AND] → ¬ P m) →
    [b] ++ take 2 rs ⊆+ top_matches).
  { intros P ? b Hb HP.
    rewrite <- (filter_app_complement P top_matches).
    apply submseteq_app.
    - by apply singleton_submseteq_l.
    - etrans; [apply sublist_submseteq, sublist_take|].
      rewrite Hprs. unfold non_exacts.
      rewrite (list_filter_iff _
        (fun m => (m_match_type m ∉ [Some EXACT; Some AND]) ∧ (¬ P m))).
      + rewrite <- list_filter_filter.
        apply sublist_submseteq, sublist_filter.
      + intros m. split; [|by intros [? _]]. intros Hm. split; [done|].
        by apply HP. }
  assert (Hlen : ∀ b : Match, (length ([b] ++ take 2 rs)) ≤ 3).
  { intros b. rewrite length_app, length_take.
    pose proof (Nat.le_min_l 2 (length rs)). simpl length. lia. }
  destruct exacts as [|e exacts'] eqn:He.
  - simpl. destruct ands as [|a ands'] eqn:Ha.
    + simpl. rewrite Hrs. simpl. eexists. split; [done|]. split.
      * rewrite length_take. pose proof (Nat.le_min_l 2 (length rs)). lia.
      * etrans; [apply sublist_submseteq, sublist_take|].
        rewrite Hprs. apply sublist_submseteq, sublist_filter.
    + unfold best_of.
      destruct (Hok (a :: ands')) as (as' & -> & Hpa).
      { rewrite <- Ha. apply Hsub. }
      simpl. rewrite Hrs. simpl.
      destruct as' as [|b as'']; [by apply Permutation_nil_l in Hpa|].
      simpl. eexists. split; [done|]. split; [apply Hlen|].
      apply (Hsplit (fun m => m_match_type m = Some AND) _ b).
      * fold ands. rewrite Ha, <- Hpa. by left.
      * intros m Hm Hty. apply Hm. rewrite Hty. by right; left.
  - unfold best_of.
    destruct (Hok (e :: exacts')) as (es' & -> & Hpe).
    { rewrite <- He. apply Hsub. }
    simpl.
    destruct es' as [|b es'']; [by apply Permutation_nil_l in Hpe|].
    simpl. rewrite Hrs. simpl. eexists. split; [done|]. split; [apply Hlen|].
    apply (Hsplit (fun m => m_match_type m = Some EXACT) _ b).
    + fold exacts. rewrite He, <- Hpe. by left.
    + intros m Hm Hty. apply Hm. rewrite Hty. by left.
Qed.

Lemma rank_no_identity_twice top_matches final_matches :
  NoDup (map match_id top_matches) →
  rank top_matches = Ok final_matches →
  (∀ m, m ∈ top_matches → is_Some (m_skill m)) →
  NoDup (map match_id final_matches).
Proof.
  intros Hnd Hrank Hall.
  destruct (rank_two_phase top_matches Hall) as (f & Hf & _ & Hsub).
  rewrite Hrank in Hf. injection Hf as <-.
  assert (Hids : match_id <$> final_matches ⊆+ match_id <$> top_matches)
    by by apply fmap_submseteq.
  apply submseteq_Permutation in Hids as [k Hk].
  change (map match_id ?l) with (match_id <$> l) in *.
  rewrite Hk in Hnd. by apply NoDup_app in Hnd as [? _].
Qed.

(** The list that [sorted] returns is in ascending order of the keys: no
    element has a key smaller than that of an element before it.  So the
    head taken by steps 1 and 2 has a least key. *)
Lemma key_ltb_trans_ge (a b c : Key) :
  key_ltb b a = false → key_ltb c b = false → key_ltb c a = false.
Proof.
  intros Hab Hbc. destruct (key_ltb c a) eqn:Hca; [|done].
  apply key_ltb_spec in Hca.
  assert (Hab' : ¬ key_ltb b a = true) by congruence.
  assert (Hbc' : ¬ key_ltb c b = true) by congruence.
  rewrite key_ltb_spec in Hab', Hbc'.
  destruct a as [[[a1 a2] a3] a4], b as [[[b1 b2] b3] b4],
    c as [[[c1 c2] c3] c4]. lia.
Qed.

Lemma insert_sorted_ascending {A} (x : Key * A) l :
  StronglySorted (fun a b => key_ltb (fst b) (fst a) = false) l →
  StronglySorted (fun a b => key_ltb (fst b) (fst a) = false)
    (insert_sorted x l).
Proof.
  induction 1 as [|y l Hl IH Hy]; simpl.
  - repeat constructor.
  - destruct (key_ltb (fst y) (fst x)) eqn:Hyx.
    + constructor; [done|].
      apply Forall_forall. intros z Hz.
      rewrite insert_sorted_perm in Hz.
      apply elem_of_cons in Hz as [->|Hz].
      * by apply key_ltb_asym.
      * by apply (proj1 (Forall_forall _ _) Hy).
    + constructor; [by constructor|].
      constructor; [done|].
      apply Forall_forall. intros z Hz.
      apply (key_ltb_trans_ge _ (fst y)); [done|].
      by apply (proj1 (Forall_forall _ _) Hy).
Qed.

Lemma stable_sort_ascending {A} (l : list (Key * A)) :
  StronglySorted (fun a b => key_ltb (fst b) (fst a) = false)
    (stable_sort l).
Proof.
  induction l as [|x l IH]; simpl; [constructor|].
  by apply insert_sorted_ascending.
Qed.

Lemma decorate_keys l d :
  decorate skill_sort_key l = Ok d →
  ∀ k m, (k, m) ∈ d → skill_sort_key m = Ok k.
Proof.
  revert d. induction l as [|x l IH]; intros d.
  - intros [= <-] k m Hin. by apply elem_of_nil in Hin.
  - rewrite decorate_cons.
    destruct (skill_sort_key x) as [kx|] eqn:Hx; [|done].
    destruct (decorate skill_sort_key l) as [d'|] eqn:Hd; [|done].
    intros [= <-] k m [[= -> ->]|Hin]%elem_of_cons; [done|].
    by apply (IH d').
Qed.

Lemma sorted_head_least l b rest :
  sorted skill_sort_key l = Ok (b :: rest) →
  ∃ kb, skill_sort_key b = Ok kb
        ∧ ∀ m, m ∈ l → ∃ km, skill_sort_key m = Ok km
                             ∧ key_ltb km kb = false.
Proof.
  unfold sorted.
  destruct (decorate_cases l) as [(d & Hd & Hl & _)|[-> _]]; [|done].
  rewrite Hd. simpl. intros [= Hs].
  pose proof (stable_sort_ascending d) as Hasc.
  pose proof (stable_sort_perm d) as Hperm.
  destruct (stable_sort d) as [|[kb b'] sd] eqn:Hsd; [done|].
  simpl in Hs. injection Hs as -> Hrest.
  assert (Hkeys := decorate_keys l d Hd).
  exists kb. split.
  { apply Hkeys. rewrite <- Hperm. by left. }
  intros m Hm. rewrite <- Hl in Hm.
  apply list_elem_of_fmap in Hm as ([km m'] & -> & Hin).
  exists km. split; [by apply Hkeys|].
  rewrite <- Hperm in Hin. apply elem_of_cons in Hin as [[= -> ->]|Hin].
  - destruct (key_ltb kb kb) eqn:E; [|done].
    by rewrite (key_ltb_asym _ _ E) in E.
  - apply StronglySorted_inv in Hasc as [_ Hall].
    by apply (proj1 (Forall_forall _ _) Hall (km, m')).
Qed.

(** C1 does not hold of the code: [skill_sort_key] starts with
    [s = match["skill"]], and a course match has no such key, so instead of
    the default key (0 experience, not current, not primary, rank 0) the
    call, the [sorted] of step 3 and the whole run end with [KeyError].
    Query "who knows python?", one profile without skills and with the
    course "Python Basics". *)
Theorem sort_key_of_course_match_raises :
  let c := a_course "Python Basics" in
  let p := a_profile "E1" [] [c] in
  let m := set_match_type COURSE (course_match p c) in
  aggregate "python" [p] = [m]
  ∧ skill_sort_key m = Raise (KeyError "skill")
  ∧ sorted skill_sort_key [m] = Raise (KeyError "skill")
  ∧ main [p] (fun _ => []) "who knows python?"
    = Uncaught (KeyError "skill")
        [PhraseForMatching "python"; SemanticFallback "who knows python?"]
        [m].
Proof. by vm_compute. Qed.

(** C5 does not hold of the code when a course match is left for step 3:
    with one EXACT match and one COURSE match the final list should be the
    EXACT match followed by the COURSE match; the ranker ends with
    [KeyError] and there is no final list. *)
Theorem ranker_fails_with_course_match :
  let s := a_skill "Python" 36 "YES" "NO" "EXPERT" in
  let c := a_course "Python Basics" in
  let p1 := a_profile "E1" [s] [] in
  let p2 := a_profile "E2" [] [c] in
  let m1 := set_match_type EXACT (skill_match p1 s) in
  let m2 := set_match_type COURSE (course_match p2 c) in
  aggregate "python" [p1; p2] = [m1; m2]
  ∧ rank [m1; m2] = Raise (KeyError "skill")
  ∧ main [p1; p2] (fun _ => []) "who knows python?"
    = Uncaught (KeyError "skill")
        [PhraseForMatching "python"; SemanticFallback "who knows python?"]
        [m1; m2].
Proof. by vm_compute. Qed.

(** ** The query phrase *)

Lemma search_who_knows_contains s g :
  search_who_knows s = Some g → Str.contains "who knows " s = true.
Proof.
  induction s as [|c r IH].
  - done.
  - cbn [search_who_knows Str.contains].
    destruct (String.prefix "who knows " (String c r)) eqn:Hp; [done|].
    intros H. rewrite IH; [by rewrite orb_true_r|done].
Qed.

(** From the query to the parts: blanks inside a part are kept, only
    hyphens and underscores are removed. *)
Example query_to_parts :
  extract_skill_phrase "Who knows Big Data and NLP?" = Some "big data and nlp"
  ∧ rewrite_conjunctions "big data and nlp" = "big data|nlp"
  ∧ parts_of "big data|nlp" = ["big data"; "nlp"]
  ∧ parts_of (rewrite_conjunctions "nlp and big data") = ["nlp"; "big data"]
  ∧ parts_of (rewrite_conjunctions "nlp and big-data") = ["nlp"; "bigdata"].
Proof. repeat split; reflexivity. Qed.

(** C9: when no skill phrase can be extracted from the query (the pattern
    does not match, or what it captures is blank) the run prints the
    message that no phrase could be extracted and stops there: no strategy
    has run, the fallback was not called, there is no result.  A query
    without "who knows " in any letter case is such a query, and the run
    stops this way for no other reason. *)
Theorem no_phrase_no_matching structured_data nearest query :
  (extract_skill_phrase query = None
   ∨ extract_skill_phrase query = Some EmptyString →
   main structured_data nearest query = Exited [CouldNotExtract])
  ∧ (Str.contains "who knows " (Str.lower query) = false →
     main structured_data nearest query = Exited [CouldNotExtract])
  ∧ (∀ printed, main structured_data nearest query = Exited printed →
       printed = [CouldNotExtract]
       ∧ (extract_skill_phrase query = None
          ∨ extract_skill_phrase query = Some EmptyString)).
Proof.
  assert (H1 : extract_skill_phrase query = None
               ∨ extract_skill_phrase query = Some EmptyString →
               main structured_data nearest query = Exited [CouldNotExtract]).
  { unfold main. by intros [-> | ->]. }
  split; [done|]. split.
  - intros Hc. apply H1. left. unfold extract_skill_phrase.
    destruct (search_who_knows (Str.lower query)) as [g|] eqn:Hs; [|done].
    apply search_who_knows_contains in Hs. congruence.
  - intros printed. unfold main.
    destruct (extract_skill_phrase query) as [[|c r]|] eqn:He; simpl.
    + intros [= <-]. split; [done|by right].
    + destruct (semantic_fallback _ _ _) as [top shown].
      destruct top; [done|]. by destruct (rank _).
    + intros [= <-]. split; [done|by left].
Qed.

Lemma no_phrase_no_matching_witness :
  let data := [a_profile "E1" [a_skill "Python" 36 "YES" "NO" "EXPERT"] []] in
  extract_skill_phrase "Find me a Python expert" = None
  ∧ extract_skill_phrase "Who knows   ?" = Some EmptyString
  ∧ main data (fun _ => [a_meta "E1"]) "Find me a Python expert"
    = Exited [CouldNotExtract]
  ∧ main data (fun _ => [a_meta "E1"]) "Who knows   ?"
    = Exited [CouldNotExtract].
Proof.
  intros data. split; [reflexivity|]. split; [reflexivity|]. split.
  - apply (proj1 (no_phrase_no_matching data (fun _ => [a_meta "E1"])
                    "Find me a Python expert")).
    left. reflexivity.
  - apply (proj1 (no_phrase_no_matching data (fun _ => [a_meta "E1"])
                    "Who knows   ?")).
    right. reflexivity.
Defined.

(** ** The semantic fallback *)

Lemma semantic_shown_cons_match n meta printed :
  semantic_shown (SemanticMatch n meta :: printed)
  = meta :: semantic_shown printed.
Proof. reflexivity. Qed.

Lemma fallback_loop_cons ids len meta rest :
  fallback_loop ids len (meta :: rest)
  = if bool_decide (meta_empID meta ∈ ids) then fallback_loop ids len rest
    else SemanticMatch (len + 1) meta ::
         (if 3 <=? len + 1 then [] else fallback_loop ids len rest).
Proof. reflexivity. Qed.

Lemma fallback_loop_prefix ids len metas :
  semantic_shown (fallback_loop ids len metas)
  `prefix_of` filter (fun meta => meta_empID meta ∉ ids) metas.
Proof.
  induction metas as [|meta rest IH]; [done|].
  rewrite fallback_loop_cons, filter_cons. case_bool_decide as Hin.
  - rewrite decide_False; [done|]. by intros ?.
  - rewrite decide_True; [|done]. rewrite semantic_shown_cons_match.
    apply prefix_cons. destruct (3 <=? len + 1); [apply prefix_nil|done].
Qed.

Lemma fallback_loop_break ids len metas :
  2 ≤ len →
  semantic_shown (fallback_loop ids len metas)
  = take 1 (filter (fun meta => meta_empID meta ∉ ids) metas).
Proof.
  intros Hlen.
  assert (Hb : (3 <=? len + 1) = true) by (apply Nat.leb_le; lia).
  induction metas as [|meta rest IH]; [done|].
  rewrite fallback_loop_cons, filter_cons. case_bool_decide as Hin.
  - rewrite decide_False; [done|]. by intros ?.
  - rewrite decide_True; [|done]. by rewrite Hb.
Qed.

Lemma fallback_loop_all len metas :
  len < 2 → semantic_shown (fallback_loop ∅ len metas) = metas.
Proof.
  intros Hlen.
  assert (Hb : (3 <=? len + 1) = false) by (apply Nat.leb_gt; lia).
  induction metas as [|meta rest IH]; [done|].
  rewrite fallback_loop_cons.
  rewrite bool_decide_eq_false_2; [|apply not_elem_of_empty].
  by rewrite Hb, semantic_shown_cons_match, IH.
Qed.

(** C2 does not hold of the code: the loop at line 238 prints the results
    of the index and appends nothing to [top_matches], so no semantic match
    fills the list and none reaches the ranker; and as the list does not
    grow, the stop test [len(top_matches) + 1 >= 3] and the number printed
    with each result stay what they were.  Three employees E1 (Python),
    E2 (Java) and E3 (Go), the index holding their three documents, query
    "who knows python?": the tiers find E1 only; the list should be filled
    with semantic matches for E2 and E3; the code prints both as "Match 2",
    leaves the list at the one match and ranks only that. *)
Theorem semantic_matches_not_added :
  (∀ nearest query top_matches,
     fst (semantic_fallback nearest query top_matches) = top_matches)
  ∧ let e1 := an_employee "E1" ["Python"] in
    let e2 := an_employee "E2" ["Java"] in
    let e3 := an_employee "E3" ["Go"] in
    let structured_data := map build_profile [e1; e2; e3] in
    let nearest := fun _ : string => map build_meta [e1; e2; e3] in
    let query := "who knows python?" in
    let m1 := set_match_type EXACT
                (skill_match (build_profile e1)
                   (a_skill "Python" 12 "YES" EmptyString "EXPERT")) in
    aggregate "python" structured_data = [m1]
    ∧ semantic_fallback nearest query [m1]
      = ([m1], [SemanticFallback query;
                SemanticMatch 2 (build_meta e2);
                SemanticMatch 2 (build_meta e3)])
    ∧ main structured_data nearest query
      = Completed [PhraseForMatching "python"; SemanticFallback query;
                   SemanticMatch 2 (build_meta e2);
                   SemanticMatch 2 (build_meta e3);
                   TopRelevant; Shown m1]
          [m1] (Some [m1]).
Proof.
  split.
  - intros nearest query top_matches. unfold semantic_fallback.
    by destruct (length top_matches <? 3).
  - by vm_compute.
Qed.

(** ** The profile normalizer *)

Lemma is_empty_false s : Str.is_empty s = false ↔ s ≠ EmptyString.
Proof. by destruct s. Qed.

Lemma clean_skills_fold l :
  clean_skills l = snd (foldl clean_step (∅, []) l).
Proof. reflexivity. Qed.

(** A filter on the normalized name goes through [dedup_first]. *)
Lemma dedup_first_filter (R : string → Prop) `{!∀ k, Decision (R k)} l :
  filter (fun s => R (normalize (s_name s))) (dedup_first l)
  = dedup_first (filter (fun s => R (normalize (s_name s))) l).
Proof.
  induction l as [|s r IH]; [done|].
  cbn [dedup_first]. rewrite !filter_cons.
  destruct (decide (R (normalize (s_name s)))) as [HR|HR].
  - cbn [dedup_first]. f_equal. rewrite <- IH.
    rewrite !list_filter_filter. apply list_filter_iff. intros x. tauto.
  - rewrite <- IH. rewrite list_filter_filter. apply list_filter_iff.
    intros x. split; [by intros [? _]|]. intros Hx. split; [done|].
    intros Heq. apply HR. by rewrite <- Heq.
Qed.

Lemma clean_step_fold seen cleaned l :
  snd (foldl clean_step (seen, cleaned) l)
  = cleaned ++ dedup_first
      (filter (fun s => normalize (s_name s) ≠ EmptyString
                        ∧ normalize (s_name s) ∉ seen) l).
Proof.
  revert seen cleaned. induction l as [|s r IH]; intros seen cleaned.
  - simpl. by rewrite app_nil_r.
  - cbn [foldl]. unfold clean_step at 2. rewrite filter_cons.
    destruct (Str.is_empty (normalize (s_name s))) eqn:He; simpl.
    + rewrite decide_False.
      * apply IH.
      * intros [Hne _]. apply Hne. by destruct (normalize (s_name s)).
    + apply is_empty_false in He. case_bool_decide as Hseen.
      * rewrite decide_True; [|done]. rewrite IH. cbn [dedup_first].
        rewrite <- app_assoc. simpl. do 2 f_equal.
        pose proof (dedup_first_filter (fun k => k ≠ normalize (s_name s))
          (filter (fun s0 => normalize (s_name s0) ≠ EmptyString
                             ∧ normalize (s_name s0) ∉ seen) r)) as Hd.
        cbv beta in Hd. symmetry. etrans; [exact Hd|]. clear Hd.
        f_equal. rewrite list_filter_filter. apply list_filter_iff.
        intros x. rewrite not_elem_of_union, not_elem_of_singleton. tauto.
      * rewrite decide_False; [apply IH|]. by intros [_ ?].
Qed.

Lemma clean_skills_spec l :
  clean_skills l
  = dedup_first (filter (fun s => normalize (s_name s) ≠ EmptyString) l).
Proof.
  rewrite clean_skills_fold, clean_step_fold. simpl. f_equal.
  apply list_filter_iff. intros x. split; [by intros [? _]|].
  intros Hx. split; [done|]. apply not_elem_of_empty.
Qed.

Lemma dedup_first_NoDup l :
  NoDup (map (fun s => normalize (s_name s)) (dedup_first l)).
Proof.
  induction l as [|s r IH]; [constructor|].
  cbn [dedup_first map]. apply NoDup_cons. split.
  - change (map ?f ?x) with (f <$> x).
    intros (x & Heq & Hx)%list_elem_of_fmap.
    apply list_elem_of_filter in Hx as [Hne _]. by destruct Hne.
  - eapply sublist_NoDup; [exact IH|].
    change (map ?f ?x) with (f <$> x). apply fmap_sublist, sublist_filter.
Qed.

Lemma map_filter_names {A} (get : A → option string) (l : list A) :
  map get_str (map get (List.filter (fun x => truthy (get x)) l))
  = filter (fun n => n ≠ EmptyString) (map get_str (map get l)).
Proof.
  induction l as [|x l IH]; [done|]. cbn [List.filter map].
  rewrite filter_cons.
  destruct (get x) as [[|c r]|] eqn:Hg; simpl; by rewrite ?Hg, IH.
Qed.

(** C7 (as the specification states it) fails: an entry whose name is not
    empty but normalizes to the empty string, such as "-", is the first of
    its normalized name and still is discarded by [clean_skills]. *)
Lemma normalizer_drops_blank_names :
  let emp := raw_employee [raw_skill "-"; raw_skill "Python"] in
  map s_name (raw_skills_struct emp) = ["-"; "Python"]
  ∧ map s_name (dedup_first (raw_skills_struct emp)) = ["-"; "Python"]
  ∧ map s_name (skills_struct (build_profile emp)) = ["Python"]
  ∧ skills_struct (build_profile emp) ≠ dedup_first (raw_skills_struct emp).
Proof.
  split; [reflexivity|]. split; [reflexivity|]. split; [reflexivity|].
  by vm_compute.
Qed.

(** C7, amended: for every raw employee record the normalizer discards the
    skill entries whose name is empty or normalizes to the empty string,
    keeps of the others the first of each normalized name, in source order;
    it discards the course and the certification entries with an empty name
    and keeps all others, duplicates included, in source order. *)
Theorem build_profile_cleans emp :
  let p := build_profile emp in
  map s_name (raw_skills_struct emp)
  = filter (fun n => n ≠ EmptyString)
      (map get_str (map rs_path (re_skills emp)))
  ∧ skills_struct p
    = dedup_first (filter (fun s => normalize (s_name s) ≠ EmptyString)
                     (raw_skills_struct emp))
  ∧ NoDup (map (fun s => normalize (s_name s)) (skills_struct p))
  ∧ (∀ s, s ∈ skills_struct p →
          s_name s ≠ EmptyString ∧ normalize (s_name s) ≠ EmptyString)
  ∧ map c_name (courses_struct p)
    = filter (fun n => n ≠ EmptyString)
        (map get_str (map rc_courseName (re_courses emp)))
  ∧ map cert_name (certs_struct p)
    = filter (fun n => n ≠ EmptyString)
        (map get_str (map rcert_certificationName (re_certifications emp))).
Proof.
  intros p. unfold p, build_profile.
  cbn [skills_struct courses_struct certs_struct].
  assert (Hraw : map s_name (raw_skills_struct emp)
    = filter (fun n => n ≠ EmptyString)
        (map get_str (map rs_path (re_skills emp)))).
  { unfold raw_skills_struct. rewrite <- map_filter_names.
    rewrite !map_map. done. }
  split; [done|]. split; [apply clean_skills_spec|].
  split; [rewrite clean_skills_spec; apply dedup_first_NoDup|]. split.
  - intros s Hs. rewrite clean_skills_spec in Hs.
    assert (Hin : s ∈ filter (fun s => normalize (s_name s) ≠ EmptyString)
                        (raw_skills_struct emp)).
    { clear Hraw. revert Hs.
      generalize (filter (fun s => normalize (s_name s) ≠ EmptyString)
                    (raw_skills_struct emp)).
      intros l. induction l as [|x l IH]; cbn [dedup_first]; [done|].
      intros [->|Hs]%elem_of_cons; [by left|]. right. apply IH.
      by apply list_elem_of_filter in Hs as [_ ?]. }
    apply list_elem_of_filter in Hin as [Hn _]. split; [|done].
    intros Hempty. apply Hn. by rewrite Hempty.
  - split.
    + unfold raw_courses_struct. rewrite <- map_filter_names.
      by rewrite !map_map.
    + unfold raw_certs_struct. rewrite <- map_filter_names.
      by rewrite !map_map.
Qed.

Lemma build_profile_cleans_witness :
  let emp :=
    raw_employee [raw_skill "-"; raw_skill "Big-Data"; raw_skill "big_data";
                  raw_skill "Python"] in
  map s_name (skills_struct (build_profile emp)) = ["Big-Data"; "Python"]
  ∧ NoDup (map (fun s => normalize (s_name s))
             (skills_struct (build_profile emp)))
  ∧ ∀ s, s ∈ skills_struct (build_profile emp) →
         s_name s ≠ EmptyString ∧ normalize (s_name s) ≠ EmptyString.
Proof.
  intros emp. split; [reflexivity|].
  pose proof (build_profile_cleans emp) as (_ & _ & Hnd & Hne & _).
  by split.
Defined.

(* ===================================================================== *)
(** * Further properties of the code                                        *)
(* ===================================================================== *)

(** ** The strategies (lines 14-58) *)

Lemma omap_profile_sublist (pick : Profile → option Match) structured_data :
  (∀ p m0, pick p = Some m0 → m_profile m0 = p) →
  map m_profile (omap pick structured_data) `sublist_of` structured_data.
Proof.
  intros Hpick. induction structured_data as [|p data IH]; simpl; [done|].
  destruct (pick p) as [m0|] eqn:Hp; simpl.
  - rewrite (Hpick _ _ Hp). by apply sublist_skip.
  - by apply sublist_cons.
Qed.

(** Every strategy goes through the corpus once, in order, and records at
    most one match per profile: the profiles of its result are a
    subsequence of the corpus (so there are no more matches than profiles),
    and what each match carries is a skill (a course) of its own profile,
    with no tag yet. *)
Theorem strategies_in_corpus_order skill_phrase skill_parts structured_data
    (partial : bool) :
  (map m_profile (find_skill_matches skill_phrase structured_data partial)
     `sublist_of` structured_data
   ∧ map m_profile (find_and_matches skill_parts structured_data)
       `sublist_of` structured_data
   ∧ map m_profile (find_or_matches skill_parts structured_data)
       `sublist_of` structured_data
   ∧ map m_profile (find_course_matches skill_phrase structured_data)
       `sublist_of` structured_data)
  ∧ (∀ m, m ∈ find_skill_matches skill_phrase structured_data partial
          ∨ m ∈ find_and_matches skill_parts structured_data
          ∨ m ∈ find_or_matches skill_parts structured_data →
          ∃ s, s ∈ skills_struct (m_profile m) ∧ m = skill_match (m_profile m) s)
  ∧ (∀ m, m ∈ find_course_matches skill_phrase structured_data →
          ∃ c, c ∈ courses_struct (m_profile m)
               ∧ m = course_match (m_profile m) c).
Proof.
  split; [|split].
  - unfold find_skill_matches, find_and_matches, find_or_matches,
      find_course_matches.
    rewrite !scan_profiles_omap.
    repeat split; apply omap_profile_sublist; intros p m0;
      (apply skill_pick_profile || apply course_pick_profile).
  - intros m Hm.
    assert (Hin : ∃ p s (P : Skill → Prop),
      m = skill_match p s ∧ first_with P (skills_struct p) s).
    { destruct Hm as [Hm|[Hm|Hm]].
      - destruct partial.
        + apply elem_of_find_partial in Hm as (p & s & _ & -> & Hs).
          by exists p, s, (partial_skill skill_phrase).
        + apply elem_of_find_exact in Hm as (p & s & _ & -> & Hs).
          by exists p, s, (exact_skill skill_phrase).
      - apply elem_of_find_and in Hm as (p & s & _ & -> & Hs).
        by exists p, s, (and_skill skill_parts).
      - apply elem_of_find_or in Hm as (p & s & _ & -> & Hs).
        by exists p, s, (or_skill skill_parts). }
    destruct Hin as (p & s & P & -> & Hs).
    apply first_with_elem in Hs as [Hs _]. by exists s.
  - intros m (p & c & _ & -> & Hc)%elem_of_find_course.
    apply first_with_elem in Hc as [Hc _]. by exists c.
Qed.

Lemma contains_empty s : Str.contains EmptyString s = true.
Proof. by destruct s. Qed.

Lemma any_part_in_empty skill_parts nm :
  EmptyString ∈ skill_parts → any_part_in skill_parts nm = true.
Proof.
  intros Hin. apply any_part_in_spec. exists EmptyString.
  split; [done|apply contains_empty].
Qed.

Lemma first_hit_always {A} (test : A → bool) xs :
  (∀ x, test x = true) → first_hit test xs = head xs.
Proof. intros H. destruct xs as [|x xs]; simpl; [done|]. by rewrite H. Qed.

Lemma omap_ext_in {A B} (f g : A → option B) (l : list A) :
  (∀ x, f x = g x) → omap f l = omap g l.
Proof.
  intros H. induction l as [|x l IH]; [done|].
  cbn [omap list_omap]. rewrite H. destruct (g x); [|done].
  f_equal. exact IH.
Qed.

(** An empty part matches everything, the empty string being a substring of
    every name.  [find_or_matches] with the empty string among its parts,
    and the partial strategy for a phrase one of whose pieces normalizes to
    the empty string, record the first skill of every profile that has a
    skill.  [find_course_matches] does not normalize the pieces, it splits
    the normalized phrase: when one of the pieces of the normalized phrase
    is empty (as for "python|-"; not for "a| |b", whose middle piece stays a
    blank there) it records the first course of every profile that has a
    course. *)
Theorem empty_part_matches_everything skill_phrase skill_parts
    structured_data :
  (EmptyString ∈ skill_parts →
   find_or_matches skill_parts structured_data
   = omap first_skill_match structured_data)
  ∧ (EmptyString ∈ parts_of skill_phrase →
     find_skill_matches skill_phrase structured_data true
     = omap first_skill_match structured_data)
  ∧ (EmptyString ∈ Str.split "|" (normalize skill_phrase) →
     find_course_matches skill_phrase structured_data
     = omap first_course_match structured_data).
Proof.
  split; [|split]; intros Hin.
  - unfold find_or_matches. rewrite scan_profiles_omap.
    apply omap_ext_in. intros p. unfold first_skill_match.
    rewrite first_hit_always; [done|].
    intros s. by apply any_part_in_empty.
  - unfold find_skill_matches. rewrite scan_profiles_omap.
    apply omap_ext_in. intros p. unfold first_skill_match.
    rewrite first_hit_always; [done|].
    intros s. simpl. destruct (String.eqb _ _); [done|].
    by apply any_part_in_empty.
  - unfold find_course_matches. rewrite scan_profiles_omap.
    apply omap_ext_in. intros p. unfold first_course_match.
    rewrite first_hit_always; [done|].
    intros c. simpl. rewrite (any_part_in_empty _ _ Hin).
    apply orb_true_r.
Qed.

Lemma empty_part_matches_everything_witness :
  let data :=
    [a_profile "E1" [a_skill "Hadoop" 3 "NO" "NO" "BEGINNER";
                     a_skill "Python" 36 "YES" "NO" "EXPERT"] [];
     a_profile "E2" [] [a_course "Cooking"]] in
  EmptyString ∈ parts_of "python|-"
  ∧ map (fun m => (match_id m, s_name <$> m_skill m))
      (find_or_matches (parts_of "python|-") data)
    = [("E1", Some "Hadoop")]
  ∧ map (fun m => (match_id m, c_name <$> m_course m))
      (find_course_matches "python|-" data)
    = [("E2", Some "Cooking")].
Proof.
  intros data.
  assert (H1 : EmptyString ∈ parts_of "python|-")
    by (vm_compute; by right; left).
  assert (H2 : EmptyString ∈ Str.split "|" (normalize "python|-"))
    by (vm_compute; by right; left).
  split; [exact H1|]. split.
  - rewrite (proj1 (empty_part_matches_everything "python|-"
                      (parts_of "python|-") data) H1).
    reflexivity.
  - rewrite (proj2 (proj2 (empty_part_matches_everything "python|-"
                             (parts_of "python|-") data)) H2).
    reflexivity.
Defined.

Lemma omap_sublist_pointwise (f g : Profile → option Match) structured_data :
  (∀ p m, f p = Some m → m_profile m = p) →
  (∀ p m, g p = Some m → m_profile m = p) →
  (∀ p, is_Some (f p) → is_Some (g p)) →
  map m_profile (omap f structured_data)
  `sublist_of` map m_profile (omap g structured_data).
Proof.
  intros Hf Hg Hfg.
  induction structured_data as [|p data IH]; [done|].
  cbn [omap list_omap].
  destruct (f p) as [m|] eqn:Hp.
  - destruct (Hfg p) as [m' Hm']; [by rewrite Hp|]. rewrite Hm'.
    cbn [map]. rewrite (Hf _ _ Hp), (Hg _ _ Hm'). by apply sublist_skip.
  - destruct (g p) as [m'|]; [|done]. cbn [map]. by apply sublist_cons.
Qed.

Lemma first_hit_never {A} (test : A → bool) xs :
  (∀ x, test x = false) → first_hit test xs = None.
Proof.
  intros H. induction xs as [|x xs IH]; simpl; [done|]. by rewrite H.
Qed.

Lemma omap_none {A B} (f : A → option B) (l : list A) :
  (∀ x, f x = None) → omap f l = [].
Proof.
  intros H. induction l as [|x l IH]; [done|].
  cbn [omap list_omap]. by rewrite H.
Qed.

(** The conjunctive strategy finds nothing the disjunctive one misses: with
    at least one part, the profiles matched by AND are, in order, among
    those matched by OR.  Without any part the two differ the other way
    round: AND records the first skill of every profile, OR nothing. *)
Theorem and_matches_within_or skill_parts structured_data :
  (skill_parts ≠ [] →
   map m_profile (find_and_matches skill_parts structured_data)
   `sublist_of` map m_profile (find_or_matches skill_parts structured_data))
  ∧ find_and_matches [] structured_data
    = omap first_skill_match structured_data
  ∧ find_or_matches [] structured_data = [].
Proof.
  unfold find_and_matches, find_or_matches. rewrite !scan_profiles_omap.
  split; [|split].
  - intros Hne. apply omap_sublist_pointwise.
    + intros p m. apply skill_pick_profile.
    + intros p m. apply skill_pick_profile.
    + intros p Hand.
      apply (skill_pick_is_Some _ (and_skill skill_parts)) in Hand
        as (s & Hs & Ha); [|intros s; apply all_parts_in_spec].
      apply (skill_pick_is_Some _ (or_skill skill_parts));
        [intros s'; apply any_part_in_spec|].
      exists s. split; [done|].
      destruct skill_parts as [|part rest]; [done|].
      exists part. split; [by left|]. apply Ha. by left.
  - apply omap_ext_in. intros p. unfold first_skill_match.
    by rewrite first_hit_always.
  - apply omap_none. intros p. by rewrite first_hit_never.
Qed.

Lemma and_matches_within_or_witness :
  let data :=
    [a_profile "E1" [a_skill "NLP Basics" 6 "NO" "NO" "BEGINNER"] [];
     a_profile "E2" [a_skill "NLP-BigData" 30 "YES" "YES" "EXPERT"] []] in
  ["nlp"; "bigdata"] ≠ []
  ∧ map m_profile (find_and_matches ["nlp"; "bigdata"] data)
    `sublist_of` map m_profile (find_or_matches ["nlp"; "bigdata"] data).
Proof.
  intros data. split; [done|].
  by apply (proj1 (and_matches_within_or ["nlp"; "bigdata"] data)).
Defined.

(** ** The merged list (lines 196-231) *)

Lemma split_one_part sep s :
  Str.has_char sep s = false → Str.split sep s = [s].
Proof.
  induction s as [|c r IH]; simpl; [done|].
  intros [Hc Hr]%orb_false_iff. rewrite Hc, (IH Hr). done.
Qed.

Lemma parts_of_two_iff skill_phrase :
  2 ≤ length (parts_of skill_phrase)
  ↔ Str.has_char "|" skill_phrase = true.
Proof.
  rewrite parts_of_length. split.
  - intros Hlen. destruct (Str.has_char "|" skill_phrase) eqn:Hb; [done|].
    rewrite (split_one_part _ _ Hb) in Hlen. simpl in Hlen. lia.
  - apply split_two_parts.
Qed.

Lemma scan_courses_profile (test : Course → bool) (P : Course → Prop)
    structured_data p :
  (∀ c, test c = true ↔ P c) → p ∈ structured_data →
  (∃ m, m ∈ scan_profiles (fun profile =>
            course_match profile <$> first_hit test (courses_struct profile))
          structured_data ∧ m_profile m = p)
  ↔ ∃ c, c ∈ courses_struct p ∧ P c.
Proof.
  intros HP Hp. rewrite scan_profiles_omap. split.
  - intros (m & (q & Hq & Hpick)%list_elem_of_omap & <-).
    pose proof (course_pick_profile _ _ _ Hpick) as ->.
    apply (course_pick_is_Some test P q HP). by rewrite Hpick.
  - intros Hex. apply (course_pick_is_Some test P p HP) in Hex as [m Hm].
    exists m. split; [|by apply course_pick_profile in Hm].
    apply list_elem_of_omap. by exists p.
Qed.

(** The conjunctive and disjunctive tiers run exactly when the phrase holds
    the delimiter, and then the partial tier adds nothing: whatever it
    finds is a profile the exact or the disjunctive tier has found before,
    so no entry of the merged list is tagged PARTIAL. *)
Theorem partial_tier_adds_nothing skill_phrase structured_data :
  (2 ≤ length (parts_of skill_phrase)
   ↔ Str.has_char "|" skill_phrase = true)
  ∧ (Str.has_char "|" skill_phrase = true →
     ∀ m, m ∈ aggregate skill_phrase structured_data →
          m_match_type m ≠ Some PARTIAL).
Proof.
  split; [apply parts_of_two_iff|].
  intros Hbar%parts_of_two_iff m. unfold aggregate.
  assert (Hg : (1 <? length (parts_of skill_phrase)) = true)
    by (apply Nat.ltb_lt; lia).
  rewrite Hg. cbv zeta. rewrite app_nil_l.
  set (top0 := map (set_match_type EXACT)
                 (find_skill_matches skill_phrase structured_data false)).
  set (top1 := extend_tier AND _ top0).
  set (top2 := extend_tier OR _ top1).
  intros [[Hm|Hnew]%elem_of_extend_tier|Ht]%extend_tier_type;
    [| |by rewrite Ht].
  - unfold top2, top1 in Hm.
    apply extend_tier_type in Hm as [Hm|Ht]; [|by rewrite Ht].
    apply extend_tier_type in Hm as [Hm|Ht]; [|by rewrite Ht].
    unfold top0 in Hm. change (map ?f ?l) with (f <$> l) in Hm.
    by apply list_elem_of_fmap in Hm as (m0 & -> & _).
  - destruct Hnew as (m0 & Hm0 & -> & Hfresh). exfalso. apply Hfresh.
    apply elem_of_find_partial in Hm0 as (p & s & Hp & -> & Hs).
    apply first_with_elem in Hs as [Hs [Hex|Hor]].
    + assert (Hin : ∃ m', m' ∈ find_skill_matches skill_phrase
                                 structured_data false ∧ m_profile m' = p).
      { unfold find_skill_matches.
        apply (scan_skills_profile _ (exact_skill skill_phrase)); [|done|].
        - intros s'. apply exact_test_spec.
        - by exists s. }
      destruct Hin as (m' & Hm' & Hprof).
      unfold top2, top1. do 2 apply existing_ids_extend_tier.
      apply elem_of_existing_ids. exists (set_match_type EXACT m').
      split; [|by unfold match_id; simpl; rewrite Hprof].
      unfold top0. change (map ?f ?l) with (f <$> l).
      by apply list_elem_of_fmap_2.
    + assert (Hin : ∃ m', m' ∈ find_or_matches (parts_of skill_phrase)
                                 structured_data ∧ m_profile m' = p).
      { unfold find_or_matches.
        apply (scan_skills_profile _
                 (or_skill (parts_of skill_phrase))); [|done|].
        - intros s'. apply any_part_in_spec.
        - by exists s. }
      destruct Hin as (m' & Hm' & Hprof).
      unfold top2.
      replace (match_id (skill_match p s)) with (match_id m')
        by (unfold match_id; by rewrite Hprof).
      by apply existing_ids_tier.
Qed.

Lemma partial_tier_adds_nothing_witness :
  let data :=
    [a_profile "E1" [a_skill "Big Data Tools" 24 "YES" "NO" "EXPERT"] [];
     a_profile "E2" [a_skill "NLP" 12 "NO" "NO" EmptyString] []] in
  Str.has_char "|" "big data|nlp" = true
  ∧ map m_match_type (aggregate "big data|nlp" data) = [Some OR; Some OR]
  ∧ ∀ m, m ∈ aggregate "big data|nlp" data →
         m_match_type m ≠ Some PARTIAL.
Proof.
  intros data. split; [reflexivity|]. split; [reflexivity|].
  apply (proj2 (partial_tier_adds_nothing "big data|nlp" data)).
  reflexivity.
Defined.

Lemma extend_tier_all (Q : Match → Prop) t tier top_matches :
  (∀ m, m ∈ top_matches → Q m) →
  (∀ m0, m0 ∈ tier → Q (set_match_type t m0)) →
  ∀ m, m ∈ extend_tier t tier top_matches → Q m.
Proof.
  intros Htop Htier m [Hm|(m0 & Hm0 & -> & _)]%elem_of_extend_tier.
  - by apply Htop.
  - by apply Htier.
Qed.

Lemma const_list_sorted (k : nat) (l : list nat) :
  (∀ x, x ∈ l → x = k) → StronglySorted le l.
Proof.
  induction l as [|x l IH]; intros Hall; [constructor|].
  constructor.
  - apply IH. intros y Hy. apply Hall. by right.
  - apply Forall_forall. intros y Hy.
    rewrite (Hall x), (Hall y); [done|by right|by left].
Qed.

Lemma extend_tier_sorted t tier top_matches :
  StronglySorted le (map tier_rank top_matches) →
  (∀ m, m ∈ top_matches → tier_rank m ≤ priority t) →
  StronglySorted le (map tier_rank (extend_tier t tier top_matches))
  ∧ ∀ m, m ∈ extend_tier t tier top_matches → tier_rank m ≤ priority t.
Proof.
  intros Hs Hle. split.
  - unfold extend_tier. change (map ?f ?l) with (f <$> l).
    rewrite fmap_app. apply StronglySorted_app_2; [|done|].
    + intros x1 x2 (m1 & -> & Hm1)%list_elem_of_fmap
        (m2 & -> & Hm2)%list_elem_of_fmap.
      apply list_elem_of_filter in Hm2 as [_ Hm2].
      apply list_elem_of_fmap in Hm2 as (m0 & -> & _).
      by apply Hle.
    + apply (const_list_sorted (priority t)).
      intros x (m & -> & Hm)%list_elem_of_fmap.
      apply list_elem_of_filter in Hm as [_ Hm].
      by apply list_elem_of_fmap in Hm as (m0 & -> & _).
  - apply extend_tier_all; [done|]. by intros m0 _.
Qed.

(** Every entry of the merged list belongs to a profile of the corpus, is
    tagged, and carries what its tier records: the first skill (course) of
    the profile that passes the test of the tier.  The entries come in the
    order of the tiers: all EXACT entries, then AND, OR, PARTIAL, COURSE. *)
Theorem merged_list_entries skill_phrase structured_data :
  (∀ m, m ∈ aggregate skill_phrase structured_data →
        m_profile m ∈ structured_data
        ∧ ∃ t, m_match_type m = Some t ∧ recorded_by skill_phrase t m)
  ∧ StronglySorted le
      (map tier_rank (aggregate skill_phrase structured_data)).
Proof.
  set (Q := fun m : Match =>
    m_profile m ∈ structured_data
    ∧ ∃ t, m_match_type m = Some t ∧ recorded_by skill_phrase t m).
  assert (HE : ∀ m0,
    m0 ∈ find_skill_matches skill_phrase structured_data false →
    Q (set_match_type EXACT m0)).
  { intros m0 (p & s & Hp & -> & Hs)%elem_of_find_exact.
    split; [done|]. exists EXACT. split; [done|]. by exists s. }
  assert (HA : ∀ m0,
    m0 ∈ find_and_matches (parts_of skill_phrase) structured_data →
    Q (set_match_type AND m0)).
  { intros m0 (p & s & Hp & -> & Hs)%elem_of_find_and.
    split; [done|]. exists AND. split; [done|]. by exists s. }
  assert (HO : ∀ m0,
    m0 ∈ find_or_matches (parts_of skill_phrase) structured_data →
    Q (set_match_type OR m0)).
  { intros m0 (p & s & Hp & -> & Hs)%elem_of_find_or.
    split; [done|]. exists OR. split; [done|]. by exists s. }
  assert (HP : ∀ m0,
    m0 ∈ find_skill_matches skill_phrase structured_data true →
    Q (set_match_type PARTIAL m0)).
  { intros m0 (p & s & Hp & -> & Hs)%elem_of_find_partial.
    split; [done|]. exists PARTIAL. split; [done|]. by exists s. }
  assert (HC : ∀ m0,
    m0 ∈ find_course_matches skill_phrase structured_data →
    Q (set_match_type COURSE m0)).
  { intros m0 (p & c & Hp & -> & Hc)%elem_of_find_course.
    split; [done|]. exists COURSE. split; [done|]. by exists c. }
  unfold aggregate. cbv zeta. rewrite app_nil_l.
  rewrite <- (extend_tier_nil EXACT).
  set (top0 := extend_tier EXACT _ []).
  assert (H0 : (∀ m, m ∈ top0 → Q m)
    ∧ StronglySorted le (map tier_rank top0)
    ∧ ∀ m, m ∈ top0 → tier_rank m ≤ priority EXACT).
  { split.
    - apply extend_tier_all; [|done].
      intros m Hm. by apply elem_of_nil in Hm.
    - apply extend_tier_sorted; [constructor|].
      intros m Hm. by apply elem_of_nil in Hm. }
  set (top2 :=
    let top1 := if 1 <? length (parts_of skill_phrase)
                then extend_tier AND _ top0 else top0 in
    if 1 <? length (parts_of skill_phrase)
    then extend_tier OR _ top1 else top1).
  assert (H2 : (∀ m, m ∈ top2 → Q m)
    ∧ StronglySorted le (map tier_rank top2)
    ∧ ∀ m, m ∈ top2 → tier_rank m ≤ priority OR).
  { destruct H0 as (HQ0 & Hs0 & Hl0). unfold top2. cbv zeta.
    destruct (1 <? length (parts_of skill_phrase)).
    - pose proof (extend_tier_sorted AND
        (find_and_matches (parts_of skill_phrase) structured_data) top0 Hs0)
        as [Hs1 Hl1].
      { intros m Hm. specialize (Hl0 m Hm). simpl in *. lia. }
      split; [|apply extend_tier_sorted; [done|]].
      + apply extend_tier_all; [|done]. by apply extend_tier_all.
      + intros m Hm. specialize (Hl1 m Hm). simpl in *. lia.
    - split; [done|]. split; [done|].
      intros m Hm. specialize (Hl0 m Hm). simpl in *. lia. }
  fold top2. destruct H2 as (HQ2 & Hs2 & Hl2).
  pose proof (extend_tier_sorted PARTIAL
    (find_skill_matches skill_phrase structured_data true) top2 Hs2)
    as [Hs3 Hl3].
  { intros m Hm. specialize (Hl2 m Hm). simpl in *. lia. }
  split.
  - apply extend_tier_all; [|done]. by apply extend_tier_all.
  - apply extend_tier_sorted; [done|].
    intros m Hm. specialize (Hl3 m Hm). simpl in *. lia.
Qed.

Lemma merged_list_entries_witness :
  let data :=
    [a_profile "E1" [a_skill "Hadoop" 3 "NO" "NO" "BEGINNER";
                     a_skill "Python 3" 36 "YES" "NO" "EXPERT"] [];
     a_profile "E2" [a_skill "Python" 12 "NO" "NO" EmptyString] []] in
  map (fun m => (match_id m, m_match_type m, s_name <$> m_skill m))
    (aggregate "python" data)
  = [("E2", Some EXACT, Some "Python"); ("E1", Some PARTIAL, Some "Python 3")]
  ∧ ∀ m, m ∈ aggregate "python" data →
         m_profile m ∈ data
         ∧ ∃ t, m_match_type m = Some t ∧ recorded_by "python" t m.
Proof.
  intros data. split; [reflexivity|].
  apply (proj1 (merged_list_entries "python" data)).
Defined.

(** ** The ranker (lines 254-271) *)

(** The head of the sorted list is the first element of least key. *)
Lemma stable_sort_head {A} (d : list (Key * A)) h rest :
  stable_sort d = h :: rest →
  ∃ pre post, d = pre ++ h :: post
    ∧ ∀ e, e ∈ pre → key_ltb (fst h) (fst e) = true.
Proof.
  revert h rest. induction d as [|x d IH]; intros h rest; [done|].
  cbn [stable_sort foldr]. fold (stable_sort d).
  destruct (stable_sort d) as [|y r] eqn:Hd.
  - pose proof (stable_sort_perm d) as Hp. rewrite Hd in Hp.
    apply Permutation_nil_l in Hp as <-. simpl. intros [= <- <-].
    exists [], []. split; [done|]. intros e He. by apply elem_of_nil in He.
  - simpl. destruct (key_ltb (fst y) (fst x)) eqn:Hyx.
    + intros [= <- <-].
      destruct (IH y r eq_refl) as (pre & post & -> & Hpre).
      exists (x :: pre), post. split; [done|].
      intros e [->|He]%elem_of_cons; [done|by apply Hpre].
    + intros [= <- <-]. exists [], d. split; [done|].
      intros e He. by apply elem_of_nil in He.
Qed.

Lemma decorate_fst l d :
  decorate skill_sort_key l = Ok d →
  d.*2 = l ∧ ∀ e, e ∈ d → skill_sort_key (snd e) = Ok (fst e).
Proof.
  intros Hd. split.
  - destruct (decorate_cases l) as [(d' & Hd' & Hl & _)|[Hr _]];
      congruence.
  - intros [k m] He. by apply (decorate_keys l d Hd).
Qed.

Lemma sorted_head_best l b rest :
  sorted skill_sort_key l = Ok (b :: rest) → best_in l b.
Proof.
  intros Hs.
  destruct (sorted_head_least l b rest Hs) as (kb & Hkb & Hleast).
  unfold sorted in Hs.
  destruct (decorate skill_sort_key l) as [d|] eqn:Hd; [|done].
  apply decorate_fst in Hd as [Hl Hkeys]. simpl in Hs.
  injection Hs as Hs.
  destruct (stable_sort d) as [|[kh h] sd] eqn:Hsd; [done|].
  simpl in Hs. injection Hs as -> _.
  destruct (stable_sort_head d _ _ Hsd) as (pre & post & -> & Hpre).
  assert (kh = kb) as ->.
  { specialize (Hkeys (kh, b)). simpl in Hkeys.
    rewrite Hkeys in Hkb; [by injection Hkb|].
    apply elem_of_app. right. by left. }
  exists (pre.*2), (post.*2), kb.
  split; [by rewrite <- Hl, fmap_app|]. split; [done|]. split.
  - intros m ([km m'] & -> & He)%list_elem_of_fmap. exists km. split.
    + apply (Hkeys (km, m')). apply elem_of_app. by left.
    + by apply (Hpre (km, m')).
  - intros m Hm. apply Hleast. rewrite <- Hl, fmap_app.
    apply elem_of_app. right. by right.
Qed.

Lemma best_of_Some l b : best_of l = Ok (Some b) → best_in l b.
Proof.
  destruct l as [|x l]; [done|]. unfold best_of.
  destruct (sorted skill_sort_key (x :: l)) as [l'|] eqn:Hs; [|done].
  simpl. destruct l' as [|b' r]; [done|]. intros [= <-].
  by apply (sorted_head_best _ _ r).
Qed.

Lemma best_of_None l : best_of l = Ok None → l = [].
Proof.
  destruct l as [|x l]; [done|]. unfold best_of.
  destruct (sorted_cases (x :: l)) as [(l' & -> & Hp & _)|[-> _]]; [|done].
  simpl. destruct l' as [|b r]; [|done].
  by apply Permutation_nil_l in Hp.
Qed.

Lemma best_in_elem l b : best_in l b → b ∈ l.
Proof.
  intros (pre & post & kb & -> & _). apply elem_of_app. right. by left.
Qed.

(** What a successful call of the ranker has computed. *)
Lemma rank_Ok_inv top_matches final_matches :
  rank top_matches = Ok final_matches →
  ∃ best_exact best_and non_exacts_sorted,
    best_of (filter (fun m => m_match_type m = Some EXACT) top_matches)
    = Ok best_exact
    ∧ match best_exact with
      | Some _ => best_and = None
      | None =>
          best_of (filter (fun m => m_match_type m = Some AND) top_matches)
          = Ok best_and
      end
    ∧ sorted skill_sort_key
        (filter (fun m => m_match_type m ∉ [Some EXACT; Some AND])
           top_matches)
      = Ok non_exacts_sorted
    ∧ final_matches
      = match best_exact, best_and with
        | Some b, _ => [b]
        | None, Some b => [b]
        | None, None => []
        end ++ take 2 non_exacts_sorted.
Proof.
  unfold rank.
  destruct (best_of (filter (fun m => m_match_type m = Some EXACT)
                       top_matches)) as [be|] eqn:Hbe; [|done].
  simpl. destruct be as [b|].
  - simpl.
    destruct (sorted skill_sort_key _) as [rs|] eqn:Hrs; [|done].
    simpl. intros [= <-]. by exists (Some b), None, rs.
  - destruct (best_of (filter (fun m => m_match_type m = Some AND)
                         top_matches)) as [ba|] eqn:Hba; [|done].
    simpl.
    destruct (sorted skill_sort_key _) as [rs|] eqn:Hrs; [|done].
    simpl. intros [= <-]. by exists None, ba, rs.
Qed.

Lemma sorted_Ok_perm l l' : sorted skill_sort_key l = Ok l' → l' ≡ₚ l.
Proof.
  intros Hs.
  destruct (sorted_cases l) as [(l'' & Hs' & Hp & _)|[Hr _]]; congruence.
Qed.

Lemma selection_submseteq (P : Match → Prop) `{!∀ m, Decision (P m)}
    top_matches b rs :
  b ∈ filter P top_matches →
  (∀ m, m_match_type m ∉ [Some EXACT; Some AND] → ¬ P m) →
  rs ≡ₚ filter (fun m => m_match_type m ∉ [Some EXACT; Some AND])
          top_matches →
  [b] ++ take 2 rs ⊆+ top_matches.
Proof.
  intros Hb HP Hprs.
  rewrite <- (filter_app_complement P top_matches).
  apply submseteq_app.
  - by apply singleton_submseteq_l.
  - etrans; [apply sublist_submseteq, sublist_take|].
    rewrite Hprs.
    rewrite (list_filter_iff _
      (fun m => (m_match_type m ∉ [Some EXACT; Some AND]) ∧ (¬ P m))).
    + rewrite <- list_filter_filter.
      apply sublist_submseteq, sublist_filter.
    + intros m. split; [|by intros [? _]]. intros Hm. split; [done|].
      by apply HP.
Qed.

(** The selection of the ranker, whenever it returns.  The final list has
    at most three entries, all of them entries of [top_matches], none taken
    twice.  Only its first entry can be an EXACT or AND match: if there are
    EXACT matches it is the first of them with the least key, otherwise, if
    there are AND matches, the first of those with the least key; all other
    EXACT and AND matches are left out, and without any the list has at
    most two entries. *)
Theorem ranker_selection top_matches final_matches :
  rank top_matches = Ok final_matches →
  let exacts := filter (fun m => m_match_type m = Some EXACT) top_matches in
  let ands := filter (fun m => m_match_type m = Some AND) top_matches in
  length final_matches ≤ 3
  ∧ final_matches ⊆+ top_matches
  ∧ (∀ m, m ∈ drop 1 final_matches →
          m_match_type m ∉ [Some EXACT; Some AND])
  ∧ (exacts ≠ [] →
     ∃ b rest, final_matches = b :: rest ∧ best_in exacts b)
  ∧ (exacts = [] → ands ≠ [] →
     ∃ b rest, final_matches = b :: rest ∧ best_in ands b)
  ∧ (exacts = [] → ands = [] →
     length final_matches ≤ 2
     ∧ ∀ m, m ∈ final_matches → m_match_type m ∉ [Some EXACT; Some AND]).
Proof.
  intros Hrank exacts ands.
  destruct (rank_Ok_inv _ _ Hrank) as (be & ba & rs & Hbe & Hba & Hrs & ->).
  fold exacts in Hbe. fold ands in Hba.
  pose proof (sorted_Ok_perm _ _ Hrs) as Hprs.
  assert (Hrest : ∀ m, m ∈ take 2 rs →
    m_match_type m ∉ [Some EXACT; Some AND]).
  { intros m Hm.
    pose proof (elem_of_sublist _ _ _ Hm (sublist_take rs 2)) as Hm'.
    rewrite Hprs in Hm'. by apply list_elem_of_filter in Hm' as [? _]. }
  assert (Hlen2 : length (take 2 rs) ≤ 2).
  { rewrite length_take. apply Nat.le_min_l. }
  destruct be as [b|].
  - (* an EXACT match leads *)
    apply best_of_Some in Hbe.
    split; [rewrite length_app; simpl; lia|]. split.
    { apply (selection_submseteq (fun m => m_match_type m = Some EXACT));
        [by apply best_in_elem|
         intros m Hm Hty; apply Hm; rewrite Hty; by left|done]. }
    split; [done|]. split; [by intros _; exists b, (take 2 rs)|].
    split; intros He; apply best_in_elem in Hbe; rewrite He in Hbe;
      by apply elem_of_nil in Hbe.
  - apply best_of_None in Hbe. destruct ba as [b|].
    + (* an AND match leads *)
      apply best_of_Some in Hba.
      split; [rewrite length_app; simpl; lia|]. split.
      { apply (selection_submseteq (fun m => m_match_type m = Some AND));
          [by apply best_in_elem|
           intros m Hm Hty; apply Hm; rewrite Hty; by right; left|done]. }
      split; [done|]. split; [done|].
      split; [by intros _ _; exists b, (take 2 rs)|].
      intros _ Ha. apply best_in_elem in Hba. rewrite Ha in Hba.
      by apply elem_of_nil in Hba.
    + apply best_of_None in Hba. simpl.
      split; [lia|]. split.
      { etrans; [apply sublist_submseteq, sublist_take|].
        rewrite Hprs. apply sublist_submseteq, sublist_filter. }
      split.
      { intros m Hm. apply Hrest.
        apply (elem_of_sublist _ _ _ Hm), sublist_drop. }
      split; [done|]. split; [done|]. by intros _ _.
Qed.

Lemma ranker_selection_witness :
  let s1 := a_skill "Python" 12 "YES" "NO" "EXPERT" in
  let s2 := a_skill "python" 36 "NO" "NO" EmptyString in
  let s3 := a_skill "Python 3" 48 "YES" "NO" "EXPERT" in
  let m1 := set_match_type EXACT (skill_match (a_profile "E1" [s1] []) s1) in
  let m2 := set_match_type EXACT (skill_match (a_profile "E2" [s2] []) s2) in
  let m3 :=
    set_match_type PARTIAL (skill_match (a_profile "E3" [s3] []) s3) in
  rank [m1; m2; m3] = Ok [m2; m3]
  ∧ length [m2; m3] ≤ 3
  ∧ [m2; m3] ⊆+ [m1; m2; m3].
Proof.
  intros s1 s2 s3 m1 m2 m3.
  assert (Hr : rank [m1; m2; m3] = Ok [m2; m3]) by reflexivity.
  split; [exact Hr|].
  pose proof (ranker_selection [m1; m2; m3] [m2; m3] Hr) as (Hl & Hs & _).
  by split.
Defined.

Lemma merged_list_skill skill_phrase structured_data m :
  m ∈ aggregate skill_phrase structured_data →
  m_match_type m = Some COURSE ↔ m_skill m = None.
Proof.
  revert m. unfold aggregate. cbv zeta. rewrite app_nil_l.
  rewrite <- (extend_tier_nil EXACT).
  assert (HS : ∀ t p s, t ≠ COURSE →
    m_match_type (set_match_type t (skill_match p s)) = Some COURSE
    ↔ m_skill (set_match_type t (skill_match p s)) = None).
  { intros t p s Ht. simpl. split; [|done]. intros [= ->]. done. }
  apply extend_tier_all.
  - apply extend_tier_all.
    + destruct (1 <? length (parts_of skill_phrase)).
      * apply extend_tier_all; [apply extend_tier_all|].
        -- apply extend_tier_all.
           ++ intros m Hm. by apply elem_of_nil in Hm.
           ++ intros m0 (p & s & _ & -> & _)%elem_of_find_exact.
              by apply HS.
        -- intros m0 (p & s & _ & -> & _)%elem_of_find_and. by apply HS.
        -- intros m0 (p & s & _ & -> & _)%elem_of_find_or. by apply HS.
      * apply extend_tier_all.
        -- intros m Hm. by apply elem_of_nil in Hm.
        -- intros m0 (p & s & _ & -> & _)%elem_of_find_exact. by apply HS.
    + intros m0 (p & s & _ & -> & _)%elem_of_find_partial. by apply HS.
  - by intros m0 (p & c & _ & -> & _)%elem_of_find_course.
Qed.

(** In the merged list of the aggregator [skill_sort_key] ends with
    [KeyError('skill')] on the COURSE entries and on no other entry.  So
    the ranker produces no final list whenever the merged list holds a
    COURSE entry, that is when some profile was matched through a course
    only; and when the ranker ends with that [KeyError], the merged list
    holds a COURSE entry. *)
Theorem ranker_on_merged_list skill_phrase structured_data :
  let top_matches := aggregate skill_phrase structured_data in
  (∀ m, m ∈ top_matches →
        skill_sort_key m = Raise (KeyError "skill")
        ↔ m_match_type m = Some COURSE)
  ∧ ((∃ m, m ∈ top_matches ∧ m_match_type m = Some COURSE) →
     ∀ final_matches, rank top_matches ≠ Ok final_matches)
  ∧ (rank top_matches = Raise (KeyError "skill") →
     ∃ m, m ∈ top_matches ∧ m_match_type m = Some COURSE).
Proof.
  intros top_matches. split; [|split].
  - intros m Hm.
    rewrite (merged_list_skill skill_phrase structured_data m Hm).
    unfold skill_sort_key. by destruct (m_skill m).
  - intros (m & Hm & Hty) final_matches.
    rewrite (rank_raises_without_skill top_matches m Hm); [done| |].
    + rewrite Hty. intros Hin.
      repeat (apply elem_of_cons in Hin as [Hin|Hin]; [done|]).
      by apply elem_of_nil in Hin.
    + by apply (merged_list_skill skill_phrase structured_data m Hm).
  - intros Hraise.
    destruct (decide (Exists (fun m => m_match_type m = Some COURSE)
                        top_matches)) as [Hex|Hno].
    + apply Exists_exists in Hex as (m & Hm & Hty). by exists m.
    + destruct (rank_two_phase top_matches) as (f & Hf & _); [|congruence].
      intros m Hm. destruct (m_skill m) eqn:Hs; [done|].
      apply (merged_list_skill skill_phrase structured_data m Hm) in Hs.
      destruct Hno. apply Exists_exists. by exists m.
Qed.

Lemma ranker_on_merged_list_witness :
  let data :=
    [a_profile "E1" [a_skill "Python" 36 "YES" "NO" "EXPERT"] [];
     a_profile "E2" [] [a_course "Python Basics"];
     a_profile "E3" [a_skill "Python 3" 12 "NO" "NO" EmptyString] []] in
  (∃ m, m ∈ aggregate "python" data ∧ m_match_type m = Some COURSE)
  ∧ ∀ final_matches, rank (aggregate "python" data) ≠ Ok final_matches.
Proof.
  intros data.
  assert (Hex : ∃ m, m ∈ aggregate "python" data
                     ∧ m_match_type m = Some COURSE).
  { exists (set_match_type COURSE
              (course_match (a_profile "E2" [] [a_course "Python Basics"])
                 (a_course "Python Basics"))).
    split; [|reflexivity]. vm_compute. do 2 right. left. }
  split; [exact Hex|].
  exact (proj1 (proj2 (ranker_on_merged_list "python" data)) Hex).
Defined.

(** ** The query phrase (lines 179-183) *)

Lemma lower_char_question c :
  Ascii.eqb (Str.lower_char c) "?" = Ascii.eqb c "?".
Proof. by destruct c as [[] [] [] [] [] [] [] []]. Qed.

Lemma lower_char_newline c :
  Ascii.eqb (Str.lower_char c) newline = Ascii.eqb c newline.
Proof. by destruct c as [[] [] [] [] [] [] [] []]. Qed.

Lemma has_char_lower_question s :
  Str.has_char "?" (Str.lower s) = Str.has_char "?" s.
Proof.
  induction s as [|c r IH]; simpl; [done|].
  by rewrite lower_char_question, IH.
Qed.

Lemma has_char_lower_newline s :
  Str.has_char newline (Str.lower s) = Str.has_char newline s.
Proof.
  induction s as [|c r IH]; simpl; [done|].
  by rewrite lower_char_newline, IH.
Qed.

Lemma append_cons c (a b : string) : String c a +:+ b = String c (a +:+ b).
Proof. reflexivity. Qed.

Lemma lower_append (a b : string) :
  Str.lower (a +:+ b) = Str.lower a +:+ Str.lower b.
Proof.
  induction a as [|c a IH]; [done|].
  rewrite append_cons. simpl. by rewrite IH, append_cons.
Qed.

Lemma has_char_drop c n s :
  Str.has_char c (Str.drop n s) = true → Str.has_char c s = true.
Proof.
  revert s. induction n as [|n IH]; intros s; [done|].
  destruct s as [|d r]; simpl; [done|].
  intros H. by rewrite (IH r H), orb_true_r.
Qed.

Lemma group_rest_chars r g :
  group_rest r = Some g →
  (∀ c, Str.has_char c g = true → Str.has_char c r = true)
  ∧ Str.has_char newline g = false ∧ Str.has_char "?" g = false.
Proof.
  revert g. induction r as [|c r IH]; intros g; simpl.
  - by intros [= <-].
  - destruct (Ascii.eqb c "?") eqn:Hq; [by intros [= <-]|].
    destruct (Ascii.eqb c newline) eqn:Hn.
    + destruct (Str.is_empty r); [by intros [= <-]|done].
    + destruct (group_rest r) as [g'|]; [|done]. simpl. intros [= <-].
      destruct (IH g' eq_refl) as (Hsub & Hnl & Hqm). simpl.
      rewrite Hn, Hq, Hnl, Hqm. split; [|done].
      intros d [->|Hd]%orb_true_iff; [done|].
      by rewrite (Hsub d Hd), orb_true_r.
Qed.

Lemma group1_chars r g :
  group1 r = Some g →
  (∀ c, Str.has_char c g = true → Str.has_char c r = true)
  ∧ Str.has_char newline g = false ∧ g ≠ EmptyString.
Proof.
  destruct r as [|c r]; simpl; [done|].
  destruct (Ascii.eqb c newline) eqn:Hn; [done|].
  destruct (group_rest r) as [g'|] eqn:Hg; [|done]. simpl. intros [= <-].
  destruct (group_rest_chars r g' Hg) as (Hsub & Hnl & _). simpl.
  rewrite Hn, Hnl. split; [|done].
  intros d [->|Hd]%orb_true_iff; [done|].
  by rewrite (Hsub d Hd), orb_true_r.
Qed.

Lemma search_who_knows_chars s g :
  search_who_knows s = Some g →
  (∀ c, Str.has_char c g = true → Str.has_char c s = true)
  ∧ Str.has_char newline g = false ∧ g ≠ EmptyString.
Proof.
  revert g. induction s as [|c r IH]; intros g.
  - done.
  - cbn [search_who_knows].
    destruct (String.prefix "who knows " (String c r)) eqn:Hp.
    + destruct (group1 (Str.drop 10 (String c r))) as [g'|] eqn:Hg.
      * intros [= <-].
        destruct (group1_chars _ _ Hg) as (Hsub & Hnl & Hne).
        split; [|done]. intros d Hd. by apply (has_char_drop d 10), Hsub.
      * intros H. destruct (IH g H) as (Hsub & Hnl & Hne).
        split; [|done]. intros d Hd. simpl.
        by rewrite (Hsub d Hd), orb_true_r.
    + intros H. destruct (IH g H) as (Hsub & Hnl & Hne).
      split; [|done]. intros d Hd. simpl.
      by rewrite (Hsub d Hd), orb_true_r.
Qed.

Lemma has_char_false_of_sub c s t :
  (∀ d, Str.has_char d t = true → Str.has_char d s = true) →
  Str.has_char c s = false → Str.has_char c t = false.
Proof.
  intros Hsub Hs. destruct (Str.has_char c t) eqn:Ht; [|done].
  by rewrite (Hsub c Ht) in Hs.
Qed.

(** What [extract_skill_phrase] returns is in lower case, has no white
    space at either end and no line break, and the query holds
    "who knows " in some letter case. *)
Theorem extracted_phrase_shape query skill_phrase :
  extract_skill_phrase query = Some skill_phrase →
  Str.lower skill_phrase = skill_phrase
  ∧ Str.strip skill_phrase = skill_phrase
  ∧ Str.has_char newline skill_phrase = false
  ∧ Str.contains "who knows " (Str.lower query) = true.
Proof.
  unfold extract_skill_phrase.
  destruct (search_who_knows (Str.lower query)) as [g|] eqn:Hs; [|done].
  simpl. intros [= <-].
  destruct (search_who_knows_chars _ _ Hs) as (Hsub & Hnl & _).
  split; [|split; [|split]].
  - apply lower_fixed. intros c Hc%has_char_strip.
    by apply (has_char_lower c query), Hsub.
  - apply strip_idem.
  - apply (has_char_false_of_sub _ g); [|done].
    intros d. apply has_char_strip.
  - by apply (search_who_knows_contains _ g).
Qed.

Lemma extracted_phrase_shape_witness :
  extract_skill_phrase "Tell me, WHO KNOWS  Big-Data ? Thanks"
  = Some "big-data"
  ∧ Str.lower "big-data" = "big-data"
  ∧ Str.strip "big-data" = "big-data".
Proof.
  assert (H : extract_skill_phrase "Tell me, WHO KNOWS  Big-Data ? Thanks"
              = Some "big-data") by reflexivity.
  split; [exact H|].
  destruct (extracted_phrase_shape _ _ H) as (Hl & Hs & _).
  by split.
Defined.

Lemma prefix_append (a b : string) : String.prefix a (a +:+ b) = true.
Proof.
  induction a as [|c a IH]; [by destruct b|].
  rewrite append_cons. cbn [String.prefix].
  destruct (ascii_dec c c) as [_|Hc]; [exact IH|by destruct Hc].
Qed.

Lemma drop_append (a b : string) : Str.drop (String.length a) (a +:+ b) = b.
Proof. induction a as [|c a IH]; [done|]. by rewrite append_cons. Qed.

Lemma search_who_knows_unfold s :
  search_who_knows s
  = match (if String.prefix "who knows " s then group1 (Str.drop 10 s)
           else None) with
    | Some g => Some g
    | None =>
        match s with
        | EmptyString => None
        | String _ r => search_who_knows r
        end
    end.
Proof. by destruct s. Qed.

Lemma search_at_start t g :
  group1 t = Some g → search_who_knows ("who knows " +:+ t) = Some g.
Proof.
  intros Hg. rewrite search_who_knows_unfold, prefix_append.
  change 10 with (String.length "who knows ").
  by rewrite drop_append, Hg.
Qed.

Lemma group_rest_question r tail :
  Str.has_char "?" r = false → Str.has_char newline r = false →
  group_rest (r +:+ String "?" tail) = Some r.
Proof.
  induction r as [|c r IH]; [done|].
  rewrite append_cons. simpl.
  intros [Hq Hr]%orb_false_iff [Hn Hr']%orb_false_iff.
  by rewrite Hq, Hn, (IH Hr Hr').
Qed.

Lemma group_rest_end r :
  Str.has_char "?" r = false → Str.has_char newline r = false →
  group_rest r = Some r.
Proof.
  induction r as [|c r IH]; [done|]. simpl.
  intros [Hq Hr]%orb_false_iff [Hn Hr']%orb_false_iff.
  by rewrite Hq, Hn, (IH Hr Hr').
Qed.

(** Asking "who knows P?" gives back P in lower case, trimmed, for every
    text P that is not empty and has no question mark and no line break:
    the letter case of the query does not matter, what follows the first
    question mark is ignored, and the question mark may be missing. *)
Theorem phrase_round_trip p tail :
  p ≠ EmptyString →
  Str.has_char "?" p = false → Str.has_char newline p = false →
  extract_skill_phrase ("Who Knows " +:+ p +:+ String "?" tail)
  = Some (Str.strip (Str.lower p))
  ∧ extract_skill_phrase ("who knows " +:+ p)
    = Some (Str.strip (Str.lower p)).
Proof.
  intros Hne Hq Hn.
  rewrite <- has_char_lower_question in Hq.
  rewrite <- has_char_lower_newline in Hn.
  unfold extract_skill_phrase. rewrite !lower_append.
  change (Str.lower "Who Knows ") with "who knows ".
  change (Str.lower "who knows ") with "who knows ".
  destruct p as [|c r]; [done|]. clear Hne.
  simpl in Hq, Hn. apply orb_false_iff in Hq as [Hqc Hqr].
  apply orb_false_iff in Hn as [Hnc Hnr].
  split.
  - rewrite (search_at_start _ (Str.lower (String c r))); [done|].
    cbn [Str.lower]. rewrite append_cons. cbn [group1].
    by rewrite Hnc, (group_rest_question _ _ Hqr Hnr).
  - rewrite (search_at_start _ (Str.lower (String c r))); [done|].
    cbn [Str.lower group1].
    by rewrite Hnc, (group_rest_end _ Hqr Hnr).
Qed.

Lemma phrase_round_trip_witness :
  " Big Data and NLP " ≠ EmptyString
  ∧ extract_skill_phrase
      ("Who Knows " +:+ " Big Data and NLP " +:+ String "?" " please")
    = Some "big data and nlp".
Proof.
  split; [done|].
  by apply (proj1 (phrase_round_trip " Big Data and NLP " " please"
                     ltac:(done) eq_refl eq_refl)).
Defined.

(** ** [clean_skills] (lines 70-78) *)

Lemma dedup_first_sublist l : dedup_first l `sublist_of` l.
Proof.
  induction l as [|s r IH]; [done|]. cbn [dedup_first].
  apply sublist_skip. etrans; [apply sublist_filter|exact IH].
Qed.

Lemma dedup_first_idem l : dedup_first (dedup_first l) = dedup_first l.
Proof.
  induction l as [|s r IH]; [done|]. cbn [dedup_first]. f_equal.
  pose proof (dedup_first_filter (fun k => k ≠ normalize (s_name s))
                (dedup_first r)) as Hd.
  cbv beta in Hd. rewrite <- Hd, IH.
  rewrite list_filter_filter. apply list_filter_iff. intros x. tauto.
Qed.

Lemma dedup_first_covers l s :
  s ∈ l →
  ∃ s', s' ∈ dedup_first l ∧ normalize (s_name s') = normalize (s_name s).
Proof.
  induction l as [|x r IH]; intros Hs; [by apply elem_of_nil in Hs|].
  cbn [dedup_first].
  apply elem_of_cons in Hs as [->|Hs]; [exists x; split; [by left|done]|].
  destruct (IH Hs) as (s' & Hs' & Heq).
  destruct (decide (normalize (s_name s') = normalize (s_name x)))
    as [Hx|Hx].
  - exists x. split; [by left|congruence].
  - exists s'. split; [|done]. right. by apply list_elem_of_filter.
Qed.

(** [clean_skills] only removes entries (what it keeps is a subsequence of
    its argument), cleaning twice changes nothing more, and no name is
    lost: every entry whose normalized name is not empty has an entry of
    the same normalized name in the result. *)
Theorem clean_skills_keeps_names l :
  clean_skills l `sublist_of` l
  ∧ clean_skills (clean_skills l) = clean_skills l
  ∧ ∀ s, s ∈ l → normalize (s_name s) ≠ EmptyString →
         ∃ s', s' ∈ clean_skills l
               ∧ normalize (s_name s') = normalize (s_name s).
Proof.
  split; [|split].
  - rewrite clean_skills_spec.
    etrans; [apply dedup_first_sublist|apply sublist_filter].
  - rewrite !clean_skills_spec.
    pose proof (dedup_first_filter (fun k => k ≠ EmptyString)
      (filter (fun s => normalize (s_name s) ≠ EmptyString) l)) as Hd.
    cbv beta in Hd. rewrite Hd, dedup_first_idem. f_equal.
    rewrite list_filter_filter. apply list_filter_iff. intros x. tauto.
  - intros s Hs Hne. rewrite clean_skills_spec.
    apply dedup_first_covers. by apply list_elem_of_filter.
Qed.

Lemma clean_skills_keeps_names_witness :
  let l := [a_skill "Big-Data" 12 "YES" "NO" "EXPERT";
            a_skill " _ " 1 "NO" "NO" EmptyString;
            a_skill "big_data" 40 "NO" "YES" EmptyString] in
  a_skill "big_data" 40 "NO" "YES" EmptyString ∈ l
  ∧ normalize "big_data" ≠ EmptyString
  ∧ map s_name (clean_skills l) = ["Big-Data"]
  ∧ ∃ s', s' ∈ clean_skills l ∧ normalize (s_name s') = normalize "big_data".
Proof.
  intros l.
  assert (Hin : a_skill "big_data" 40 "NO" "YES" EmptyString ∈ l)
    by (by right; right; left).
  assert (Hne : normalize "big_data" ≠ EmptyString) by (by vm_compute).
  split; [exact Hin|]. split; [exact Hne|]. split; [reflexivity|].
  exact (proj2 (proj2 (clean_skills_keeps_names l)) _ Hin Hne).
Defined.

(** ** The loop of the semantic fallback (lines 237-252) *)

Lemma fallback_loop_map ids len metas :
  fallback_loop ids len metas
  = map (SemanticMatch (len + 1))
      (let fresh := filter (fun meta => meta_empID meta ∉ ids) metas in
       if 3 <=? len + 1 then take 1 fresh else fresh).
Proof.
  cbv zeta. induction metas as [|meta rest IH]; [by destruct (3 <=? len + 1)|].
  rewrite fallback_loop_cons, filter_cons. case_bool_decide as Hin.
  - rewrite decide_False; [done|]. by intros ?.
  - rewrite decide_True; [|done]. rewrite IH.
    by destruct (3 <=? len + 1).
Qed.

(** What the fallback prints, in full.  It runs when there are fewer than 3
    matches and leaves the list of matches as it is.  Of the documents the
    index returns it prints those whose empID is not among the matches, in
    the order of the index: only the first of them after 2 matches, all of
    them after 0 or 1 match (so up to 4 results are shown in all), every
    one under the same number, one more than the number of matches. *)
Theorem fallback_output nearest query top_matches :
  let fresh := filter (fun meta => meta_empID meta ∉ existing_ids top_matches)
                 (nearest query) in
  semantic_fallback nearest query top_matches
  = (top_matches,
     if length top_matches <? 3
     then SemanticFallback query ::
          map (SemanticMatch (length top_matches + 1))
            (if length top_matches =? 2 then take 1 fresh else fresh)
     else []).
Proof.
  intros fresh. unfold semantic_fallback.
  destruct (length top_matches <? 3) eqn:Hlt; [|done].
  apply Nat.ltb_lt in Hlt. rewrite fallback_loop_map. cbv zeta.
  fold fresh. do 3 f_equal.
  destruct (length top_matches =? 2) eqn:H2.
  - apply Nat.eqb_eq in H2. rewrite H2. done.
  - apply Nat.eqb_neq in H2.
    assert (Hb : (3 <=? length top_matches + 1) = false)
      by (apply Nat.leb_gt; lia).
    by rewrite Hb.
Qed.

(** ** [normalize] once more (lines 9-12) *)

Lemma lower_idem s : Str.lower (Str.lower s) = Str.lower s.
Proof.
  induction s as [|c r IH]; simpl; [done|]. by rewrite lower_char_idem, IH.
Qed.

(** [normalize] does not see the letter case of its argument nor the
    white space around it; its result is in lower case and holds no hyphen
    and no underscore. *)
Theorem normalize_shape x :
  normalize (Str.lower x) = normalize x
  ∧ normalize (Str.strip x) = normalize x
  ∧ Str.lower (normalize x) = normalize x
  ∧ Str.has_char "-" (normalize x) = false
  ∧ Str.has_char "_" (normalize x) = false.
Proof.
  split; [|split; [|split; [|split]]].
  - by rewrite !normalize_unfold, strip_lower, lower_idem.
  - by rewrite !normalize_unfold, strip_idem.
  - apply lower_fixed. intros c. apply normalize_lowered.
  - apply normalize_no_dash.
  - apply normalize_no_underscore.
Qed.

(** ** The phrase without a conjunction (lines 190-191) *)

Lemma replace_go_absent fuel old new s :
  Str.contains old s = false → Str.replace_go fuel old new s = s.
Proof.
  revert s. induction fuel as [|fuel IH]; intros s; [done|].
  destruct s as [|c r]; [done|]. cbn [Str.replace_go Str.contains].
  intros [Hp Hr]%orb_false_iff. by rewrite Hp, (IH r Hr).
Qed.

Lemma replace_absent old new s :
  Str.contains old s = false → Str.replace old new s = s.
Proof. apply replace_go_absent. Qed.

(** A phrase that holds neither " and " nor " or " goes through the
    rewriting unchanged; if it holds no "|" either it has the single part
    [normalize(phrase)], the conjunctive and disjunctive tiers do not run,
    and every entry of the merged list is tagged EXACT, PARTIAL or
    COURSE. *)
Theorem single_term_phrase skill_phrase structured_data :
  Str.contains " and " skill_phrase = false →
  Str.contains " or " skill_phrase = false →
  rewrite_conjunctions skill_phrase = skill_phrase
  ∧ (Str.has_char "|" skill_phrase = false →
     parts_of (rewrite_conjunctions skill_phrase) = [normalize skill_phrase]
     ∧ ∀ m, m ∈ aggregate (rewrite_conjunctions skill_phrase)
                  structured_data →
            m_match_type m ∈ [Some EXACT; Some PARTIAL; Some COURSE]).
Proof.
  intros Hand Hor.
  assert (Hrw : rewrite_conjunctions skill_phrase = skill_phrase).
  { unfold rewrite_conjunctions.
    by rewrite (replace_absent " and " _ _ Hand), (replace_absent _ _ _ Hor). }
  split; [done|]. rewrite Hrw. intros Hbar.
  assert (Hparts : parts_of skill_phrase = [normalize skill_phrase]).
  { unfold parts_of. by rewrite (split_one_part _ _ Hbar). }
  split; [done|]. intros m. unfold aggregate. rewrite Hparts. cbv zeta.
  cbn [length Nat.ltb Nat.leb]. rewrite app_nil_l.
  intros [[Hm|Ht]%extend_tier_type|Ht]%extend_tier_type.
  - change (map ?f ?l) with (f <$> l) in Hm.
    apply list_elem_of_fmap in Hm as (m0 & -> & _). by left.
  - rewrite Ht. by right; left.
  - rewrite Ht. by right; right; left.
Qed.

Lemma single_term_phrase_witness :
  let data :=
    [a_profile "E1" [a_skill "Docker" 36 "YES" "NO" "EXPERT"] []] in
  Str.contains " and " "docker" = false
  ∧ Str.contains " or " "docker" = false
  ∧ rewrite_conjunctions "docker" = "docker"
  ∧ rewrite_conjunctions "dock and er" = "dock|er".
Proof.
  intros data.
  split; [reflexivity|]. split; [reflexivity|]. split; [|reflexivity].
  by apply (proj1 (single_term_phrase "docker" data eq_refl eq_refl)).
Defined.

Lemma strategies_in_corpus_order_witness :
  let data :=
    [a_profile "E1" [a_skill "Hadoop" 3 "NO" "NO" "BEGINNER"] [];
     a_profile "E2" [a_skill "Python" 36 "YES" "NO" "EXPERT"] [];
     a_profile "E3" [a_skill "Python 3" 12 "NO" "NO" EmptyString] []] in
  map match_id (find_skill_matches "python" data true) = ["E2"; "E3"]
  ∧ map m_profile (find_skill_matches "python" data true)
    `sublist_of` data.
Proof.
  intros data. split; [reflexivity|].
  apply (proj1 (strategies_in_corpus_order "python" ["python"] data true)).
Defined.

(** ** The skills of a semantic match (lines 113-114, 146, 245-250) *)

Lemma length_drop_cons n c r :
  1 ≤ n → String.length (Str.drop n (String c r)) ≤ String.length r.
Proof.
  intros Hn. destruct n as [|n]; [lia|]. simpl. clear Hn.
  revert r. induction n as [|n IH]; intros r; [done|].
  destruct r as [|d r]; simpl; [done|]. specialize (IH r). lia.
Qed.

(** More fuel than the length changes nothing. *)
Lemma split_str_go_fuel sep fuel1 fuel2 s :
  sep ≠ EmptyString →
  String.length s ≤ fuel1 → String.length s ≤ fuel2 →
  split_str_go fuel1 sep s = split_str_go fuel2 sep s.
Proof.
  intros Hsep. revert fuel2 s.
  induction fuel1 as [|f1 IH]; intros fuel2 s H1 H2.
  - destruct s; [|simpl in H1; lia]. by destruct fuel2.
  - destruct s as [|c r]; [by destruct fuel2|].
    destruct fuel2 as [|f2]; [simpl in H2; lia|].
    simpl in H1, H2. cbn [split_str_go].
    destruct (String.prefix sep (String c r)).
    + f_equal. apply IH.
      * etrans; [apply length_drop_cons|lia].
        destruct sep; [done|simpl; lia].
      * etrans; [apply length_drop_cons|lia].
        destruct sep; [done|simpl; lia].
    + rewrite (IH f2 r); [done|lia|lia].
Qed.

Lemma split_str_unfold sep c r :
  sep ≠ EmptyString →
  split_str sep (String c r)
  = if String.prefix sep (String c r)
    then EmptyString ::
         split_str sep (Str.drop (String.length sep) (String c r))
    else match split_str sep r with
         | h :: t => String c h :: t
         | [] => [String c EmptyString]
         end.
Proof.
  intros Hsep. unfold split_str. cbn [String.length split_str_go].
  destruct (String.prefix sep (String c r)); [|done].
  f_equal. apply split_str_go_fuel; [done| |done].
  apply length_drop_cons. destruct sep; [done|simpl; lia].
Qed.

Lemma comma_prefix_extend c r (tail : string) :
  Str.contains ", " (String c r) = false →
  String.prefix ", " (String c (r +:+ ", " +:+ tail)) = false.
Proof.
  cbn [Str.contains]. intros [Hp _]%orb_false_iff.
  destruct r as [|d r'].
  - cbn [String.prefix]. destruct (ascii_dec "," c); [|done].
    rewrite append_cons. cbn [String.prefix].
    by destruct (ascii_dec " " ",").
  - rewrite append_cons. cbn [String.prefix] in *.
    destruct (ascii_dec "," c); [|done].
    destruct (ascii_dec " " d); [|done].
    by destruct r'.
Qed.

Lemma split_str_name n tail :
  Str.contains ", " n = false →
  split_str ", " (n +:+ ", " +:+ tail) = n :: split_str ", " tail.
Proof.
  induction n as [|c r IH]; intros Hn.
  - change (EmptyString +:+ ", " +:+ tail)
      with (String "," (String " " tail)).
    rewrite split_str_unfold; [|done].
    cbn [String.prefix]. destruct (ascii_dec "," ","); [|done].
    destruct (ascii_dec " " " "); [|done].
    by destruct tail.
  - rewrite append_cons, split_str_unfold; [|done].
    rewrite (comma_prefix_extend c r tail Hn).
    rewrite IH; [done|].
    cbn [Str.contains] in Hn. by apply orb_false_iff in Hn as [_ ?].
Qed.

Lemma split_str_last n :
  Str.contains ", " n = false → split_str ", " n = [n].
Proof.
  induction n as [|c r IH]; intros Hn; [done|].
  rewrite split_str_unfold; [|done].
  cbn [Str.contains] in Hn. apply orb_false_iff in Hn as [Hp Hr].
  by rewrite Hp, (IH Hr).
Qed.

Lemma append_assoc_str (a b c : string) :
  (a +:+ b) +:+ c = a +:+ (b +:+ c).
Proof.
  induction a as [|x a IH]; [done|]. by rewrite !append_cons, IH.
Qed.

Lemma join_names_cons n m l :
  join_names (n :: m :: l) = n +:+ ", " +:+ join_names (m :: l).
Proof.
  unfold join_names. cbn [foldl].
  revert n m. induction l as [|x l IH]; intros n m; [done|].
  cbn [foldl]. rewrite (IH (n +:+ ", " +:+ m) x), (IH m x).
  by rewrite !append_assoc_str.
Qed.

Lemma split_join_names names :
  names ≠ [] →
  (∀ n, n ∈ names → Str.contains ", " n = false) →
  split_str ", " (join_names names) = names.
Proof.
  induction names as [|n l IH]; [done|]. intros _ Hall.
  destruct l as [|m l].
  - apply split_str_last, Hall. by left.
  - rewrite join_names_cons, split_str_name; [|apply Hall; by left].
    f_equal. apply IH; [done|]. intros x Hx. apply Hall. by right.
Qed.

(** What is printed as the skills of a semantic match is what the ingestion
    stored: joined with ", " there and split at ", " here, the names of the
    cleaned skills come back as they were, provided no name holds ", "
    itself; the first five are printed and the others counted.  For an
    employee without skills one empty entry is printed, the split of the
    empty text being the list of one empty string. *)
Theorem shown_skills_of_ingested emp :
  let names := map s_name (skills_struct (build_profile emp)) in
  (∀ n, n ∈ names → Str.contains ", " n = false) →
  shown_skills (build_meta emp)
  = match names with
    | [] => ([EmptyString], None)
    | _ => (take 5 names,
            if 5 <? length names then Some (length names - 5) else None)
    end.
Proof.
  intros names Hall. unfold shown_skills, build_meta.
  cbn [meta_skills_list].
  change (map s_name (clean_skills (raw_skills_struct emp))) with names.
  clearbody names. destruct names as [|n l]; [reflexivity|].
  rewrite split_join_names; [done|done|exact Hall].
Qed.

Lemma shown_skills_of_ingested_witness :
  let emp :=
    raw_employee [raw_skill "Python"; raw_skill "python"; raw_skill "C++";
                  raw_skill "Go"; raw_skill "Rust"; raw_skill "Java";
                  raw_skill "SQL"; raw_skill "R"] in
  (∀ n, n ∈ map s_name (skills_struct (build_profile emp)) →
        Str.contains ", " n = false)
  ∧ shown_skills (build_meta emp)
    = (["Python"; "C++"; "Go"; "Rust"; "Java"], Some 2).
Proof.
  intros emp.
  assert (Hall : ∀ n, n ∈ map s_name (skills_struct (build_profile emp)) →
                      Str.contains ", " n = false).
  { intros n Hn. vm_compute in Hn.
    repeat (apply elem_of_cons in Hn as [->|Hn]; [reflexivity|]).
    by apply elem_of_nil in Hn. }
  split; [exact Hall|].
  rewrite (shown_skills_of_ingested emp Hall). reflexivity.
Defined.
